(** * Punch-card logging tool (打卡工具): a shallow embedding of [script.js]

    The repository holds two variants of one browser script: the simpler
    one ([打卡工具/script.js]) and the richer one, which adds a delete button
    per row and a clear-all button.  Both keep the whole log as a JSON
    array of [{text, date}] objects under the [localStorage] key
    ['punchData'].

    The development has three layers:
    - the platform the script calls into: ECMAScript strings
      ([String.prototype.trim]), [JSON.stringify], [JSON.parse], property
      access and [ToString] on parsed JSON values, [localStorage], the DOM
      nodes the script touches, [alert], [confirm], [Blob] and object URLs;
    - the two scripts, [Simple] and [Rich], each translated function by
      function into a state-and-exception monad over the page;
    - the theorems about them. *)

From Stdlib Require Import NArith ZArith List Lia Bool Ascii String Wf_nat.
From stdpp Require Import base option list gmap.
Import ListNotations.

Local Open Scope N_scope.
Local Open Scope list_scope.
Local Set Warnings "-register-all".

(** ** ECMAScript strings

    A String value is a finite sequence of 16-bit code units; a code unit
    is kept as an [N] (every value the script can see is below [65536]). *)

Abbreviation jsstring := (list N).

(** Source text is UTF-8; a literal of the script is turned into its
    UTF-16 code units by [utf16].  [cont b] is the payload of a UTF-8
    continuation byte. *)
Definition cont (b : ascii) : N := N.land (N_of_ascii b) 63.

Fixpoint utf16_bytes (bs : list ascii) : jsstring :=
  match bs with
  | [] => []
  | b :: bs1 =>
    let n := N_of_ascii b in
    if n <? 128 then n :: utf16_bytes bs1
    else if n <? 224 then
      match bs1 with
      | c1 :: bs2 => (N.land n 31 * 64 + cont c1) :: utf16_bytes bs2
      | [] => []
      end
    else if n <? 240 then
      match bs1 with
      | c1 :: c2 :: bs3 =>
        (N.land n 15 * 4096 + cont c1 * 64 + cont c2) :: utf16_bytes bs3
      | _ => []
      end
    else
      match bs1 with
      | c1 :: c2 :: c3 :: bs4 =>
        let cp := N.land n 7 * 262144 + cont c1 * 4096 + cont c2 * 64 + cont c3 in
        let u := cp - 65536 in
        (55296 + u / 1024) :: (56320 + u mod 1024) :: utf16_bytes bs4
      | _ => []
      end
  end.

Definition utf16 (s : string) : jsstring := utf16_bytes (list_ascii_of_string s).

(** [WhiteSpace] and [LineTerminator] code points of ECMA-262, the ones
    [String.prototype.trim] strips: TAB, LF, VT, FF, CR, SP, NBSP, the
    Unicode space separators (category Zs), LS, PS and ZWNBSP. *)
Definition is_trim_space (c : N) : bool :=
  (c =? 9) || (c =? 10) || (c =? 11) || (c =? 12) || (c =? 13) || (c =? 32)
  || (c =? 160) || (c =? 5760) || ((8192 <=? c) && (c <=? 8202))
  || (c =? 8232) || (c =? 8233) || (c =? 8239) || (c =? 8287)
  || (c =? 12288) || (c =? 65279).

Fixpoint trimStart (s : jsstring) : jsstring :=
  match s with
  | c :: s' => if is_trim_space c then trimStart s' else s
  | [] => []
  end.

Definition trimEnd (s : jsstring) : jsstring := rev (trimStart (rev s)).

(** [String.prototype.trim] *)
Definition trim (s : jsstring) : jsstring := trimEnd (trimStart s).

(** [ToBoolean] of a String: only the empty string is falsy. *)
Definition truthy (s : jsstring) : bool :=
  match s with [] => false | _ :: _ => true end.

(** Decimal digits of an array index or length ([Number::toString] on a
    non-negative integer below 2^53). *)
Fixpoint uint_units (d : Decimal.uint) : jsstring :=
  match d with
  | Decimal.Nil => []
  | Decimal.D0 d => 48 :: uint_units d
  | Decimal.D1 d => 49 :: uint_units d
  | Decimal.D2 d => 50 :: uint_units d
  | Decimal.D3 d => 51 :: uint_units d
  | Decimal.D4 d => 52 :: uint_units d
  | Decimal.D5 d => 53 :: uint_units d
  | Decimal.D6 d => 54 :: uint_units d
  | Decimal.D7 d => 55 :: uint_units d
  | Decimal.D8 d => 56 :: uint_units d
  | Decimal.D9 d => 57 :: uint_units d
  end.

Definition decimal (n : nat) : jsstring := uint_units (Nat.to_uint n).

(** ** Numbers

    The script never computes with the numbers a tampered store may hold;
    it only parses, prints and compares them with zero.  The Number type
    (IEEE doubles) and these four operations are kept abstract. *)
Class NumberOps := {
  number : Type;
  (** the Number a JSON number token denotes *)
  StringToNumber : jsstring -> number;
  (** [Number::toString] in radix 10 *)
  Number_toString : number -> jsstring;
  (** neither NaN nor an infinity *)
  Number_isFinite : number -> bool;
  (** [x === 0], true of both zeros *)
  Number_isZero : number -> bool
}.

(** ** Outcomes *)

(** Errors the script can raise. *)
Inductive Error := SyntaxError | TypeError.

(** Completion of an evaluation: a value, or a thrown error. *)
Inductive completion (A : Type) :=
| Normal (a : A)
| Throw (e : Error).
Arguments Normal {A} a.
Arguments Throw {A} e.

Definition completion_bind {A B} (c : completion A) (k : A -> completion B)
  : completion B :=
  match c with
  | Normal a => k a
  | Throw e => Throw e
  end.

(** Outcome of a sub-parser: a value and the rest of the input, a syntax
    error, or not enough fuel. *)
Inductive parsed (A : Type) :=
| Parsed (a : A) (rest : jsstring)
| SyntaxErr
| OutOfFuel.
Arguments Parsed {A} a rest.
Arguments SyntaxErr {A}.
Arguments OutOfFuel {A}.

(** [r] is a result on input [s] that used up some of it and did not run
    out of fuel. *)
Definition consumes {A} (s : jsstring) (r : parsed A) : Prop :=
  match r with
  | Parsed _ rest => (List.length rest < List.length s)%nat
  | SyntaxErr => True
  | OutOfFuel => False
  end.

(** ** JSON values

    What [JSON.parse] returns.  The properties of an object are kept in
    the order [OrdinaryOwnPropertyKeys] enumerates them; keys are unique. *)
Section JSON.
Context `{NumberOps}.

Inductive jsval :=
| JNull
| JBool (b : bool)
| JNum (n : number)
| JStr (s : jsstring)
| JArr (elements : list jsval)
| JObj (properties : list (jsstring * jsval)).

(** *** Property keys *)

Definition is_digit (c : N) : bool := (48 <=? c) && (c <=? 57).

Definition digits_value (s : jsstring) : N :=
  fold_left (fun acc c => 10 * acc + (c - 48)) s 0.

(** An array index is the canonical decimal form of an integer in
    [0, 2^32 - 2]. *)
Definition array_index (k : jsstring) : option N :=
  match k with
  | [] => None
  | c :: k' =>
    if forallb is_digit k
       && ((negb (c =? 48)) || (match k' with [] => true | _ => false end))
       && (Nat.leb (List.length k) 10)
       && (digits_value k <=? 4294967294)
    then Some (digits_value k)
    else None
  end.

Definition jsstring_eqb (a b : jsstring) : bool := bool_decide (a = b).

Fixpoint has_key (k : jsstring) (o : list (jsstring * jsval)) : bool :=
  match o with
  | [] => false
  | (k', _) :: o' => jsstring_eqb k k' || has_key k o'
  end.

Fixpoint replace_value (k : jsstring) (v : jsval) (o : list (jsstring * jsval))
  : list (jsstring * jsval) :=
  match o with
  | [] => []
  | (k', v') :: o' =>
    if jsstring_eqb k k' then (k', v) :: o' else (k', v') :: replace_value k v o'
  end.

(** A new array-index key goes before the first key that is not an array
    index or is a larger one. *)
Fixpoint insert_index (i : N) (k : jsstring) (v : jsval)
    (o : list (jsstring * jsval)) : list (jsstring * jsval) :=
  match o with
  | [] => [(k, v)]
  | (k', v') :: o' =>
    match array_index k' with
    | Some j => if j <? i then (k', v') :: insert_index i k v o'
                else (k, v) :: o
    | None => (k, v) :: o
    end
  end.

(** [CreateDataProperty] on an ordinary object. *)
Definition CreateDataProperty (o : list (jsstring * jsval)) (k : jsstring)
    (v : jsval) : list (jsstring * jsval) :=
  if has_key k o then replace_value k v o
  else match array_index k with
       | Some i => insert_index i k v o
       | None => o ++ [(k, v)]
       end.

(** Own property lookup. *)
Fixpoint get_own (k : jsstring) (o : list (jsstring * jsval)) : option jsval :=
  match o with
  | [] => None
  | (k', v) :: o' => if jsstring_eqb k k' then Some v else get_own k o'
  end.

(** ** JSON.stringify *)

Definition is_lead_surrogate (c : N) : bool := (55296 <=? c) && (c <=? 56319).
Definition is_trail_surrogate (c : N) : bool := (56320 <=? c) && (c <=? 57343).

Definition hex_digit (n : N) : N := if n <? 10 then 48 + n else 87 + n.

(** [UnicodeEscape]: a backslash, [u] and four lowercase hex digits. *)
Definition UnicodeEscape (c : N) : jsstring :=
  [92; 117; hex_digit (c / 4096 mod 16); hex_digit (c / 256 mod 16);
   hex_digit (c / 16 mod 16); hex_digit (c mod 16)].

(** The two-character escapes of [QuoteJSONString]: backspace, tab, line
    feed, form feed, carriage return, double quote, backslash. *)
Definition short_escape (c : N) : option N :=
  if c =? 8 then Some 98
  else if c =? 9 then Some 116
  else if c =? 10 then Some 110
  else if c =? 12 then Some 102
  else if c =? 13 then Some 114
  else if c =? 34 then Some 34
  else if c =? 92 then Some 92
  else None.

(** [QuoteJSONString] walks the code points of the string: a surrogate
    pair is copied, a lone surrogate and a control character are
    escaped. *)
Fixpoint quote_units (s : jsstring) : jsstring :=
  match s with
  | [] => []
  | c :: s' =>
    match short_escape c with
    | Some e => 92 :: e :: quote_units s'
    | None =>
      if c <? 32 then UnicodeEscape c ++ quote_units s'
      else if is_lead_surrogate c then
        match s' with
        | d :: s'' =>
          if is_trail_surrogate d then c :: d :: quote_units s''
          else UnicodeEscape c ++ quote_units s'
        | [] => UnicodeEscape c
        end
      else if is_trail_surrogate c then UnicodeEscape c ++ quote_units s'
      else c :: quote_units s'
    end
  end.

Definition QuoteJSONString (s : jsstring) : jsstring :=
  34 :: quote_units s ++ [34].

Fixpoint join_comma (parts : list jsstring) : jsstring :=
  match parts with
  | [] => []
  | [p] => p
  | p :: parts' => p ++ 44 :: join_comma parts'
  end.

(** [JSON.stringify(value)] with no replacer and no indentation. *)
Fixpoint JSON_stringify (v : jsval) : jsstring :=
  match v with
  | JNull => utf16 "null"
  | JBool true => utf16 "true"
  | JBool false => utf16 "false"
  | JNum n => if Number_isFinite n then Number_toString n else utf16 "null"
  | JStr s => QuoteJSONString s
  | JArr vs => 91 :: join_comma (List.map JSON_stringify vs) ++ [93]
  | JObj ps =>
    123 :: join_comma
             (List.map (fun p => QuoteJSONString (fst p) ++ 58 :: JSON_stringify (snd p)) ps)
        ++ [125]
  end.

(** ** JSON.parse

    Code units that matter to the grammar: 34 double quote, 92 backslash,
    117 [u], 44 comma, 58 colon, 91 and 93 brackets, 123 and 125 braces,
    45 minus, 43 plus, 46 point, 101 and 69 [e] and [E], 48 to 57 digits. *)

(** JSON white space: tab, line feed, carriage return, space. *)
Definition is_json_ws (c : N) : bool :=
  (c =? 9) || (c =? 10) || (c =? 13) || (c =? 32).

Fixpoint skip_ws (s : jsstring) : jsstring :=
  match s with
  | c :: s' => if is_json_ws c then skip_ws s' else s
  | [] => []
  end.

Definition hex_value (c : N) : option N :=
  if (48 <=? c) && (c <=? 57) then Some (c - 48)
  else if (97 <=? c) && (c <=? 102) then Some (c - 87)
  else if (65 <=? c) && (c <=? 70) then Some (c - 55)
  else None.

Definition hex4 (a b c d : N) : option N :=
  match hex_value a, hex_value b, hex_value c, hex_value d with
  | Some x3, Some x2, Some x1, Some x0 => Some (x3 * 4096 + x2 * 256 + x1 * 16 + x0)
  | _, _, _, _ => None
  end.

(** The character a backslash escape other than [u] stands for. *)
Definition unescape (e : N) : option N :=
  if e =? 34 then Some 34
  else if e =? 92 then Some 92
  else if e =? 47 then Some 47
  else if e =? 98 then Some 8
  else if e =? 102 then Some 12
  else if e =? 110 then Some 10
  else if e =? 114 then Some 13
  else if e =? 116 then Some 9
  else None.

Definition cons_unit (c : N) (r : option (jsstring * jsstring))
  : option (jsstring * jsstring) :=
  match r with
  | Some (str, rest) => Some (c :: str, rest)
  | None => None
  end.

(** The characters of a JSON string after its opening quote, up to and
    including the closing quote; the decoded string and what follows. *)
Fixpoint string_chars (s : jsstring) : option (jsstring * jsstring) :=
  match s with
  | [] => None
  | c :: s1 =>
    if c =? 34 then Some ([], s1)
    else if c =? 92 then
      match s1 with
      | [] => None
      | e :: s2 =>
        if e =? 117 then
          match s2 with
          | h3 :: h2 :: h1 :: h0 :: s6 =>
            match hex4 h3 h2 h1 h0 with
            | Some u => cons_unit u (string_chars s6)
            | None => None
            end
          | _ => None
          end
        else
          match unescape e with
          | Some u => cons_unit u (string_chars s2)
          | None => None
          end
      end
    else if c <? 32 then None
    else cons_unit c (string_chars s1)
  end.

Fixpoint span_digits (s : jsstring) : jsstring * jsstring :=
  match s with
  | c :: s' =>
    if is_digit c then let '(ds, rest) := span_digits s' in (c :: ds, rest)
    else ([], s)
  | [] => ([], [])
  end.

(** [int]: a single zero, or a non-zero digit and more digits. *)
Definition scan_int (s : jsstring) : option (jsstring * jsstring) :=
  match s with
  | c :: s' =>
    if c =? 48 then Some ([48], s')
    else if is_digit c then let '(ds, rest) := span_digits s' in Some (c :: ds, rest)
    else None
  | [] => None
  end.

(** [frac], optional: a point and at least one digit. *)
Definition scan_frac (s : jsstring) : option (jsstring * jsstring) :=
  match s with
  | c :: s' =>
    if c =? 46 then
      match span_digits s' with
      | ([], _) => None
      | (ds, rest) => Some (c :: ds, rest)
      end
    else Some ([], s)
  | [] => Some ([], [])
  end.

(** [exp], optional: [e] or [E], an optional sign, at least one digit. *)
Definition scan_exp (s : jsstring) : option (jsstring * jsstring) :=
  match s with
  | c :: s' =>
    if (c =? 101) || (c =? 69) then
      let '(sign, s'') :=
        match s' with
        | g :: t => if (g =? 43) || (g =? 45) then ([g], t) else ([], s')
        | [] => ([], s')
        end in
      match span_digits s'' with
      | ([], _) => None
      | (ds, rest) => Some (c :: sign ++ ds, rest)
      end
    else Some ([], s)
  | [] => Some ([], [])
  end.

(** A JSON number token: its text and what follows. *)
Definition scan_number (s : jsstring) : option (jsstring * jsstring) :=
  let '(minus, s0) :=
    match s with
    | c :: s' => if c =? 45 then ([c], s') else ([], s)
    | [] => ([], s)
    end in
  match scan_int s0 with
  | None => None
  | Some (i, s1) =>
    match scan_frac s1 with
    | None => None
    | Some (f, s2) =>
      match scan_exp s2 with
      | None => None
      | Some (e, s3) => Some (minus ++ i ++ f ++ e, s3)
      end
    end
  end.

Fixpoint strip_prefix (p s : jsstring) : option jsstring :=
  match p, s with
  | [], _ => Some s
  | a :: p', b :: s' => if a =? b then strip_prefix p' s' else None
  | _ :: _, [] => None
  end.

Definition literal (word : string) (v : jsval) (s : jsstring) : parsed jsval :=
  match strip_prefix (utf16 word) s with
  | Some rest => Parsed v rest
  | None => SyntaxErr
  end.

(** Recursive descent over the JSON grammar (ECMA-404).  [parse_value]
    skips leading white space; [parse_elements] reads the elements of a
    non-empty array up to its closing bracket, [parse_members] the members
    of a non-empty object up to its closing brace. *)
Fixpoint parse_value (fuel : nat) (s : jsstring) : parsed jsval :=
  match fuel with
  | O => OutOfFuel
  | S fuel' =>
    match skip_ws s with
    | [] => SyntaxErr
    | c :: s1 =>
      if c =? 123 then
        match skip_ws s1 with
        | [] => SyntaxErr
        | c1 :: s2 =>
          if c1 =? 125 then Parsed (JObj []) s2
          else
            match parse_members fuel' s1 with
            | Parsed ms rest =>
              Parsed (JObj (fold_left (fun o m => CreateDataProperty o (fst m) (snd m)) ms []))
                     rest
            | SyntaxErr => SyntaxErr
            | OutOfFuel => OutOfFuel
            end
        end
      else if c =? 91 then
        match skip_ws s1 with
        | [] => SyntaxErr
        | c1 :: s2 =>
          if c1 =? 93 then Parsed (JArr []) s2
          else
            match parse_elements fuel' s1 with
            | Parsed vs rest => Parsed (JArr vs) rest
            | SyntaxErr => SyntaxErr
            | OutOfFuel => OutOfFuel
            end
        end
      else if c =? 34 then
        match string_chars s1 with
        | Some (str, rest) => Parsed (JStr str) rest
        | None => SyntaxErr
        end
      else if (c =? 45) || is_digit c then
        match scan_number (c :: s1) with
        | Some (token, rest) => Parsed (JNum (StringToNumber token)) rest
        | None => SyntaxErr
        end
      else if c =? 116 then literal "true" (JBool true) (c :: s1)
      else if c =? 102 then literal "false" (JBool false) (c :: s1)
      else if c =? 110 then literal "null" JNull (c :: s1)
      else SyntaxErr
    end
  end
with parse_elements (fuel : nat) (s : jsstring) : parsed (list jsval) :=
  match fuel with
  | O => OutOfFuel
  | S fuel' =>
    match parse_value fuel' s with
    | Parsed v s1 =>
      match skip_ws s1 with
      | [] => SyntaxErr
      | c :: s2 =>
        if c =? 44 then
          match parse_elements fuel' s2 with
          | Parsed vs rest => Parsed (v :: vs) rest
          | SyntaxErr => SyntaxErr
          | OutOfFuel => OutOfFuel
          end
        else if c =? 93 then Parsed [v] s2
        else SyntaxErr
      end
    | SyntaxErr => SyntaxErr
    | OutOfFuel => OutOfFuel
    end
  end
with parse_members (fuel : nat) (s : jsstring) : parsed (list (jsstring * jsval)) :=
  match fuel with
  | O => OutOfFuel
  | S fuel' =>
    match skip_ws s with
    | [] => SyntaxErr
    | q :: s1 =>
      if q =? 34 then
        match string_chars s1 with
        | None => SyntaxErr
        | Some (key, s2) =>
          match skip_ws s2 with
          | [] => SyntaxErr
          | colon :: s3 =>
            if colon =? 58 then
              match parse_value fuel' s3 with
              | Parsed v s4 =>
                match skip_ws s4 with
                | [] => SyntaxErr
                | c :: s5 =>
                  if c =? 44 then
                    match parse_members fuel' s5 with
                    | Parsed ms rest => Parsed ((key, v) :: ms) rest
                    | SyntaxErr => SyntaxErr
                    | OutOfFuel => OutOfFuel
                    end
                  else if c =? 125 then Parsed [(key, v)] s5
                  else SyntaxErr
                end
              | SyntaxErr => SyntaxErr
              | OutOfFuel => OutOfFuel
              end
            else SyntaxErr
          end
        end
      else SyntaxErr
    end
  end.

(** [JSON.parse(text)]: one value, white space around it, nothing else.
    The fuel is more than the descent can use (lemma [parse_value_fuel]),
    so the only failure is the syntax error. *)
Definition JSON_parse (text : jsstring) : completion jsval :=
  match parse_value (2 * List.length text + 1) text with
  | Parsed v rest =>
    match skip_ws rest with
    | [] => Normal v
    | _ :: _ => Throw SyntaxError
    end
  | SyntaxErr => Throw SyntaxError
  | OutOfFuel => Throw SyntaxError
  end.

(** ** Property access and conversions on parsed values *)

(** [ToString] of a parsed value, as a template literal applies it.  An
    array goes through [Array.prototype.join]: null elements give the
    empty string.  A plain object prints as [[object Object]], unless an
    own (hence not callable) [toString] shadows the inherited one: then no
    primitive can be had and the conversion throws. *)
Fixpoint ToString (v : jsval) : completion jsstring :=
  match v with
  | JNull => Normal (utf16 "null")
  | JBool true => Normal (utf16 "true")
  | JBool false => Normal (utf16 "false")
  | JNum n => Normal (Number_toString n)
  | JStr s => Normal s
  | JArr vs =>
    (fix join (l : list jsval) : completion jsstring :=
       match l with
       | [] => Normal []
       | x :: l' =>
         completion_bind
           (match x with JNull => Normal [] | _ => ToString x end)
           (fun sx =>
              match l' with
              | [] => Normal sx
              | _ :: _ => completion_bind (join l') (fun r => Normal (sx ++ 44 :: r))
              end)
       end) vs
  | JObj ps =>
    if has_key (utf16 "toString") ps then Throw TypeError
    else Normal (utf16 "[object Object]")
  end.

(** [${e}] where [e] may be undefined ([None]). *)
Definition template_value (e : option jsval) : completion jsstring :=
  match e with
  | Some v => ToString v
  | None => Normal (utf16 "undefined")
  end.

(** [item.text], [item.date]: reading a property that no built-in
    prototype defines.  [None] is undefined; reading from null throws. *)
Definition get_field (item : jsval) (k : jsstring) : completion (option jsval) :=
  match item with
  | JNull => Throw TypeError
  | JObj ps => Normal (get_own k ps)
  | JBool _ | JNum _ | JStr _ | JArr _ => Normal None
  end.

(** [data.length === 0] *)
Definition length_is_zero (data : jsval) : completion bool :=
  match data with
  | JNull => Throw TypeError
  | JArr vs => Normal (Nat.eqb (List.length vs) 0)
  | JStr s => Normal (Nat.eqb (List.length s) 0)
  | JObj ps =>
    Normal (match get_own (utf16 "length") ps with
            | Some (JNum n) => Number_isZero n
            | _ => false
            end)
  | JBool _ | JNum _ => Normal false
  end.

(** The receiver of [push], [reverse], [forEach] or [slice().reverse()]:
    only an array has these methods.  null has no properties at all, and on
    every other parsed value the method is undefined (a String has [slice],
    but what it returns has no [reverse]): the call throws a TypeError. *)
Definition array_receiver (data : jsval) : completion (list jsval) :=
  match data with
  | JArr vs => Normal vs
  | _ => Throw TypeError
  end.

(** [Array.prototype.splice(start, deleteCount)] with no inserted items:
    the array that is left. *)
Definition splice (l : list jsval) (start deleteCount : Z) : list jsval :=
  let len := Z.of_nat (List.length l) in
  let actualStart :=
    if (start <? 0)%Z then Z.max (len + start) 0 else Z.min start len in
  let actualDeleteCount := Z.min (Z.max deleteCount 0) (len - actualStart) in
  firstn (Z.to_nat actualStart) l
  ++ skipn (Z.to_nat (actualStart + actualDeleteCount)) l.

(** The object literal [{ text, date: dateStr }]. *)
Definition entry_object (text dateStr : jsstring) : jsval :=
  JObj [(utf16 "text", JStr text); (utf16 "date", JStr dateStr)].

End JSON.

(** ** The page

    The state the script reads and writes. *)

(** The closure of a delete button: the array [data] of the rendering
    that made it (a reference into [arrays]) and the row's [idx]. *)
Record closure := { captured_data : nat; captured_idx : nat }.

Record button := {
  textContent : jsstring;
  style_marginLeft : jsstring;
  onclick : closure
}.

(** A row of the list: the markup assigned to [innerHTML] and the button
    appended after it, if any. *)
Record li := { innerHTML : jsstring; delBtn : option button }.

Record Blob := { blob_parts : list jsstring; blob_type : jsstring }.

(** An [<a>] element; [href] is an object URL, the index of its entry in
    the blob URL store. *)
Record anchor := { href : nat; download : jsstring }.

(** What the page shows the user outside the document. *)
Inductive output :=
| Alert (message : jsstring)
| Confirm (message : jsstring)
| Download (filename : jsstring) (file : Blob).

Section Page.
Context `{NumberOps}.

Record page := {
  localStorage : gmap jsstring jsstring;
  punchInput_value : jsstring;
  (** children of the [punchList] element *)
  punchList : list li;
  (** elements the script appended to [document.body] *)
  body : list anchor;
  (** blob URL store; a revoked URL maps to [None] *)
  blob_urls : list (option Blob);
  (** arrays kept alive by the closures of delete buttons *)
  arrays : list (list jsval);
  outputs : list output
}.

Definition set_localStorage (f : gmap jsstring jsstring -> gmap jsstring jsstring)
    (p : page) : page :=
  {| localStorage := f (localStorage p); punchInput_value := punchInput_value p;
     punchList := punchList p; body := body p; blob_urls := blob_urls p;
     arrays := arrays p; outputs := outputs p |}.

Definition set_punchInput_value (v : jsstring) (p : page) : page :=
  {| localStorage := localStorage p; punchInput_value := v;
     punchList := punchList p; body := body p; blob_urls := blob_urls p;
     arrays := arrays p; outputs := outputs p |}.

Definition set_punchList (f : list li -> list li) (p : page) : page :=
  {| localStorage := localStorage p; punchInput_value := punchInput_value p;
     punchList := f (punchList p); body := body p; blob_urls := blob_urls p;
     arrays := arrays p; outputs := outputs p |}.

Definition set_body (f : list anchor -> list anchor) (p : page) : page :=
  {| localStorage := localStorage p; punchInput_value := punchInput_value p;
     punchList := punchList p; body := f (body p); blob_urls := blob_urls p;
     arrays := arrays p; outputs := outputs p |}.

Definition set_blob_urls (f : list (option Blob) -> list (option Blob))
    (p : page) : page :=
  {| localStorage := localStorage p; punchInput_value := punchInput_value p;
     punchList := punchList p; body := body p; blob_urls := f (blob_urls p);
     arrays := arrays p; outputs := outputs p |}.

Definition set_arrays (f : list (list jsval) -> list (list jsval))
    (p : page) : page :=
  {| localStorage := localStorage p; punchInput_value := punchInput_value p;
     punchList := punchList p; body := body p; blob_urls := blob_urls p;
     arrays := f (arrays p); outputs := outputs p |}.

Definition add_output (o : output) (p : page) : page :=
  {| localStorage := localStorage p; punchInput_value := punchInput_value p;
     punchList := punchList p; body := body p; blob_urls := blob_urls p;
     arrays := arrays p; outputs := outputs p ++ [o] |}.

(** A computation of the script: it runs on a page and ends with a value
    or a thrown error; what it did to the page before throwing stays. *)
Definition M (A : Type) : Type := page -> completion A * page.

Definition ret {A} (a : A) : M A := fun p => (Normal a, p).

Definition bind {A B} (m : M A) (k : A -> M B) : M B :=
  fun p =>
    match m p with
    | (Normal a, p') => k a p'
    | (Throw e, p') => (Throw e, p')
    end.

Definition lift {A} (c : completion A) : M A := fun p => (c, p).

Definition read {A} (f : page -> A) : M A := fun p => (Normal (f p), p).

Definition modify (f : page -> page) : M unit := fun p => (Normal tt, f p).

End Page.

Declare Scope script_scope.
Delimit Scope script_scope with script.
Notation "'let*' x := m 'in' k" := (bind m (fun x => k))
  (at level 10, x name, m at level 100, k at level 200) : script_scope.
Notation "m ;; k" := (bind m (fun _ => k))
  (at level 100, k at level 200, right associativity) : script_scope.

Section Platform.
Context `{NumberOps}.
Local Open Scope script_scope.

(** [localStorage.getItem(key)]; [None] is null. *)
Definition localStorage_getItem (key : jsstring) : M (option jsstring) :=
  read (fun p => localStorage p !! key).

(** [localStorage.setItem(key, value)] *)
Definition localStorage_setItem (key value : jsstring) : M unit :=
  modify (set_localStorage (insert key value)).

(** [alert(message)] *)
Definition alert (message : jsstring) : M unit :=
  modify (add_output (Alert message)).

(** [confirm(message)]; [answer] is what the user chooses. *)
Definition confirm (message : jsstring) (answer : bool) : M bool :=
  modify (add_output (Confirm message)) ;; ret answer.

(** [URL.createObjectURL(blob)] *)
Definition URL_createObjectURL (blob : Blob) : M nat :=
  let* url := read (fun p => List.length (blob_urls p)) in
  modify (set_blob_urls (fun store => store ++ [Some blob])) ;;
  ret url.

(** [URL.revokeObjectURL(url)] *)
Definition URL_revokeObjectURL (url : nat) : M unit :=
  modify (set_blob_urls (fun store => <[url := None]> store)).

(** [document.body.appendChild(a)], [document.body.removeChild(a)] *)
Definition body_appendChild (a : anchor) : M unit :=
  modify (set_body (fun children => children ++ [a])).

Definition anchor_eqb (a b : anchor) : bool :=
  Nat.eqb (href a) (href b) && jsstring_eqb (download a) (download b).

Fixpoint remove_first (a : anchor) (children : list anchor) : list anchor :=
  match children with
  | [] => []
  | b :: children' =>
    if anchor_eqb a b then children' else b :: remove_first a children'
  end.

(** Nodes carry no identity here.  The script only removes the node it has
    just appended, so [removeChild(a)] takes out the last child equal to
    [a]. *)
Definition body_removeChild (a : anchor) : M unit :=
  modify (set_body (fun children => rev (remove_first a (rev children)))).

(** [a.click()] on an anchor with a [download] attribute: the browser
    saves what the [href] resolves to under that name. *)
Definition anchor_click (a : anchor) : M unit :=
  let* target := read (fun p => blob_urls p !! href a) in
  match target with
  | Some (Some file) => modify (add_output (Download (download a) file))
  | _ => ret tt
  end.

(** [punchList.innerHTML = ''] and [punchList.appendChild(li)] *)
Definition punchList_clear : M unit := modify (set_punchList (fun _ => [])).

Definition punchList_appendChild (row : li) : M unit :=
  modify (set_punchList (fun rows => rows ++ [row])).

(** Keeping an array alive for closures; reading and updating it through
    the reference. *)
Definition new_array (elements : list jsval) : M nat :=
  let* ref := read (fun p => List.length (arrays p)) in
  modify (set_arrays (fun heap => heap ++ [elements])) ;;
  ret ref.

(** (A reference comes from [new_array]; the default is never used.) *)
Definition read_array (ref : nat) : M (list jsval) :=
  read (fun p => default [] (arrays p !! ref)).

Definition write_array (ref : nat) (elements : list jsval) : M unit :=
  modify (set_arrays (fun heap => <[ref := elements]> heap)).

(** [array.forEach((item, idx) => ...)] *)
Fixpoint forEach (items : list jsval) (idx : nat)
    (callback : jsval -> nat -> M unit) : M unit :=
  match items with
  | [] => ret tt
  | item :: items' => callback item idx ;; forEach items' (S idx) callback
  end.

(** The markup of a row:
    [`<span>${item.text}</span><span class="date">${item.date}</span>`] *)
Definition row_markup (item : jsval) : completion jsstring :=
  completion_bind (completion_bind (get_field item (utf16 "text")) template_value)
    (fun text =>
  completion_bind (completion_bind (get_field item (utf16 "date")) template_value)
    (fun date =>
  Normal (utf16 "<span>" ++ text ++ utf16 "</span><span class=" ++ [34]
          ++ utf16 "date" ++ [34] ++ utf16 ">" ++ date ++ utf16 "</span>"))).

(** One line of the export:
    [`【${idx+1}】${item.date}：${item.text}\n`] *)
Definition export_line (item : jsval) (idx : nat) : completion jsstring :=
  completion_bind (completion_bind (get_field item (utf16 "date")) template_value)
    (fun date =>
  completion_bind (completion_bind (get_field item (utf16 "text")) template_value)
    (fun text =>
  Normal (utf16 "【" ++ decimal (idx + 1) ++ utf16 "】" ++ date ++ utf16 "："
          ++ text ++ [10]))).

(** [data.forEach((item, idx) => { content += ... })] on the local
    variable [content]. *)
Fixpoint export_forEach (items : list jsval) (idx : nat) (content : jsstring)
  : completion jsstring :=
  match items with
  | [] => Normal content
  | item :: items' =>
    completion_bind (export_line item idx)
      (fun line => export_forEach items' (S idx) (content ++ line))
  end.

End Platform.

(** ** The simpler script: [打卡工具/script.js] *)

Module Simple.
Section Script.
Context `{NumberOps}.
Local Open Scope script_scope.

(** [[
function getPunchData() {
    const data = localStorage.getItem('punchData');
    return data ? JSON.parse(data) : [];
}
]] *)
Definition getPunchData : M jsval :=
  let* data := localStorage_getItem (utf16 "punchData") in
  match data with
  | Some raw => if truthy raw then lift (JSON_parse raw) else ret (JArr [])
  | None => ret (JArr [])
  end.

(** [[
function savePunchData(data) {
    localStorage.setItem('punchData', JSON.stringify(data));
}
]] *)
Definition savePunchData (data : jsval) : M unit :=
  localStorage_setItem (utf16 "punchData") (JSON_stringify data).

(** [[
function renderPunchList() {
    const data = getPunchData();
    punchList.innerHTML = '';
    data.reverse().forEach(item => {
        const li = document.createElement('li');
        li.innerHTML = `<span>${item.text}</span><span class="date">${item.date}</span>`;
        punchList.appendChild(li);
    });
}
]] *)
Definition renderPunchList : M unit :=
  let* data := getPunchData in
  punchList_clear ;;
  let* elements := lift (array_receiver data) in
  forEach (rev elements) 0 (fun item _ =>
    let* markup := lift (row_markup item) in
    punchList_appendChild {| innerHTML := markup; delBtn := None |}).

(** The submit listener of [punchForm]; [dateStr] is what
    [now.toLocaleString('zh-CN', { hour12: false })] returns.
    [e.preventDefault()] touches nothing the page keeps.
[[
    e.preventDefault();
    const text = punchInput.value.trim();
    if (!text) return;
    const now = new Date();
    const dateStr = now.toLocaleString('zh-CN', { hour12: false });
    const data = getPunchData();
    data.push({ text, date: dateStr });
    savePunchData(data);
    punchInput.value = '';
    renderPunchList();
]] *)
Definition punchForm_submit (dateStr : jsstring) : M unit :=
  let* value := read punchInput_value in
  let text := trim value in
  if negb (truthy text) then ret tt
  else
    let* data := getPunchData in
    let* elements := lift (array_receiver data) in
    let data := JArr (elements ++ [entry_object text dateStr]) in
    savePunchData data ;;
    modify (set_punchInput_value []) ;;
    renderPunchList.

(** The click listener of [exportBtn].
[[
    const data = getPunchData();
    if (data.length === 0) {
        alert('暂无打卡数据可导出！');
        return;
    }
    let content = '';
    data.forEach((item, idx) => {
        content += `【${idx+1}】${item.date}：${item.text}\n`;
    });
    const blob = new Blob([content], { type: 'text/plain' });
    const url = URL.createObjectURL(blob);
    const a = document.createElement('a');
    a.href = url;
    a.download = 'punch.txt';
    document.body.appendChild(a);
    a.click();
    document.body.removeChild(a);
    URL.revokeObjectURL(url);
]] *)
Definition exportBtn_click : M unit :=
  let* data := getPunchData in
  let* empty := lift (length_is_zero data) in
  if empty then alert (utf16 "暂无打卡数据可导出！")
  else
    let* elements := lift (array_receiver data) in
    let* content := lift (export_forEach elements 0 []) in
    let blob := {| blob_parts := [content]; blob_type := utf16 "text/plain" |} in
    let* url := URL_createObjectURL blob in
    let a := {| href := url; download := utf16 "punch.txt" |} in
    body_appendChild a ;;
    anchor_click a ;;
    body_removeChild a ;;
    URL_revokeObjectURL url.

End Script.
End Simple.

(** ** The richer script: delete buttons and clear-all *)

Module Rich.
Section Script.
Context `{NumberOps}.
Local Open Scope script_scope.

Definition getPunchData : M jsval :=
  let* data := localStorage_getItem (utf16 "punchData") in
  match data with
  | Some raw => if truthy raw then lift (JSON_parse raw) else ret (JArr [])
  | None => ret (JArr [])
  end.

Definition savePunchData (data : jsval) : M unit :=
  localStorage_setItem (utf16 "punchData") (JSON_stringify data).

(** [[
function renderPunchList() {
    const data = getPunchData();
    punchList.innerHTML = '';
    data.slice().reverse().forEach((item, idx) => {
        const li = document.createElement('li');
        li.innerHTML = `<span>${item.text}</span><span class="date">${item.date}</span>`;
        const delBtn = document.createElement('button');
        delBtn.textContent = '删除';
        delBtn.style.marginLeft = '10px';
        delBtn.onclick = function() { ... };
        li.appendChild(delBtn);
        punchList.appendChild(li);
    });
}
]]
    [data] outlives the call: every [onclick] closure refers to it. *)
Definition renderPunchList : M unit :=
  let* data := getPunchData in
  punchList_clear ;;
  let* elements := lift (array_receiver data) in
  let* data_ref := new_array elements in
  forEach (rev elements) 0 (fun item idx =>
    let* markup := lift (row_markup item) in
    let delBtn :=
      {| textContent := utf16 "删除";
         style_marginLeft := utf16 "10px";
         onclick := {| captured_data := data_ref; captured_idx := idx |} |} in
    punchList_appendChild {| innerHTML := markup; delBtn := Some delBtn |}).

(** The body of an [onclick] closure.
[[
            const originIdx = data.length - 1 - idx;
            data.splice(originIdx, 1);
            savePunchData(data);
            renderPunchList();
]] *)
Definition delBtn_onclick (c : closure) : M unit :=
  let* data := read_array (captured_data c) in
  let originIdx :=
    (Z.of_nat (List.length data) - 1 - Z.of_nat (captured_idx c))%Z in
  let data := splice data originIdx 1 in
  write_array (captured_data c) data ;;
  savePunchData (JArr data) ;;
  renderPunchList.

(** The user activates the delete button of the row displayed at
    position [displayIdx]. *)
Definition click_delBtn (displayIdx : nat) : M unit :=
  let* rows := read punchList in
  match rows !! displayIdx with
  | Some {| delBtn := Some b |} => delBtn_onclick (onclick b)
  | _ => ret tt
  end.

Definition punchForm_submit (dateStr : jsstring) : M unit :=
  let* value := read punchInput_value in
  let text := trim value in
  if negb (truthy text) then ret tt
  else
    let* data := getPunchData in
    let* elements := lift (array_receiver data) in
    let data := JArr (elements ++ [entry_object text dateStr]) in
    savePunchData data ;;
    modify (set_punchInput_value []) ;;
    renderPunchList.

Definition exportBtn_click : M unit :=
  let* data := getPunchData in
  let* empty := lift (length_is_zero data) in
  if empty then alert (utf16 "暂无打卡数据可导出！")
  else
    let* elements := lift (array_receiver data) in
    let* content := lift (export_forEach elements 0 []) in
    let blob := {| blob_parts := [content]; blob_type := utf16 "text/plain" |} in
    let* url := URL_createObjectURL blob in
    let a := {| href := url; download := utf16 "punch.txt" |} in
    body_appendChild a ;;
    anchor_click a ;;
    body_removeChild a ;;
    URL_revokeObjectURL url.

(** The click listener of [clearAllBtn]; [answer] is the user's choice in
    the confirmation dialog.
[[
    if (confirm('确定要清空全部打卡数据吗？此操作不可恢复！')) {
        savePunchData([]);
        renderPunchList();
    }
]] *)
Definition clearAllBtn_click (answer : bool) : M unit :=
  let* confirmed := confirm (utf16 "确定要清空全部打卡数据吗？此操作不可恢复！") answer in
  if confirmed then savePunchData (JArr []) ;; renderPunchList
  else ret tt.

End Script.
End Rich.

(** ** The data model of the log

    An entry is an object with two String properties, created by the
    submit listener as [{ text, date: dateStr }]; the log is the array of
    the entries, oldest first. *)
Record Entry := { text : jsstring; date : jsstring }.

(** Sample entries. *)
Definition entry_A : Entry := {| text := utf16 "A"; date := utf16 "D1" |}.
Definition entry_B : Entry := {| text := utf16 "B"; date := utf16 "D2" |}.
Definition entry_C : Entry := {| text := utf16 "C"; date := utf16 "D3" |}.

Section Log.
Context `{NumberOps}.

Definition entry_value (e : Entry) : jsval := entry_object (text e) (date e).

Definition log_value (log : list Entry) : jsval := JArr (List.map entry_value log).

(** The page as [load()] sees it: what [getPunchData] returns on it. *)
Definition load (p : page) : completion jsval := fst (Rich.getPunchData p).

(** The markup of the row of an entry. *)
Definition entry_markup (e : Entry) : jsstring :=
  utf16 "<span>" ++ text e ++ utf16 "</span><span class=" ++ [34]
  ++ utf16 "date" ++ [34] ++ utf16 ">" ++ date e ++ utf16 "</span>".

(** The line of the report for the entry at 1-based position [i]. *)
Definition report_line (i : nat) (e : Entry) : jsstring :=
  utf16 "【" ++ decimal i ++ utf16 "】" ++ date e ++ utf16 "：" ++ text e ++ [10].

(** The report of a log whose first entry has position [i]. *)
Fixpoint report_from (i : nat) (log : list Entry) : jsstring :=
  match log with
  | [] => []
  | e :: log' => report_line i e ++ report_from (S i) log'
  end.

Definition report (log : list Entry) : jsstring := report_from 1 log.

(** The rows of a rendering.  [simple_row] is a row of the simpler
    script; [rich_rows ref idx log] are the rows of the richer one for the
    entries [log], displayed from position [idx] on, their buttons bound
    to the array at [ref]. *)
Definition simple_row (e : Entry) : li :=
  {| innerHTML := entry_markup e; delBtn := None |}.

Definition rich_row (ref idx : nat) (e : Entry) : li :=
  {| innerHTML := entry_markup e;
     delBtn := Some {| textContent := utf16 "删除";
                       style_marginLeft := utf16 "10px";
                       onclick := {| captured_data := ref; captured_idx := idx |} |} |}.

Fixpoint rich_rows (ref idx : nat) (log : list Entry) : list li :=
  match log with
  | [] => []
  | e :: log' => rich_row ref idx e :: rich_rows ref (S idx) log'
  end.

(** The log without the entry at index [i]. *)
Definition without (i : nat) (log : list Entry) : list Entry :=
  firstn i log ++ skipn (S i) log.

(** A freshly opened page whose storage holds [stored] under
    ['punchData'] ([None]: no such key) and whose input field holds
    [input]. *)
Definition page_with (stored : option jsstring) (input : jsstring) : page :=
  {| localStorage := match stored with
                     | Some raw => {[ utf16 "punchData" := raw ]}
                     | None => ∅
                     end;
     punchInput_value := input;
     punchList := [];
     body := [];
     blob_urls := [];
     arrays := [];
     outputs := [] |}.

(** A freshly opened page that stores the log [log]. *)
Definition page_storing (log : list Entry) (input : jsstring) : page :=
  page_with (Some (JSON_stringify (log_value log))) input.

(** The page a submit leaves, up to the list it then renders: the new
    log is stored and the input field is empty. *)
Definition submitted (log : list Entry) (p : page) : page :=
  set_punchInput_value []
    (set_localStorage
       (insert (utf16 "punchData") (JSON_stringify (log_value log))) p).

(** What a user can do on the page of the richer script: type a value and
    submit, activate the delete button of a row, export, answer the
    clear-all dialog, open the page again (the storage stays, the
    document is new and the script renders the list). *)
Inductive action :=
| DoSubmit (value dateStr : jsstring)
| DoDelete (displayIdx : nat)
| DoExport
| DoClearAll (answer : bool)
| DoReload.

Definition reopen (p : page) : page :=
  {| localStorage := localStorage p; punchInput_value := []; punchList := [];
     body := []; blob_urls := []; arrays := []; outputs := [] |}.

Definition step (a : action) (p : page) : page :=
  match a with
  | DoSubmit value dateStr =>
    snd (Rich.punchForm_submit dateStr (set_punchInput_value value p))
  | DoDelete displayIdx => snd (Rich.click_delBtn displayIdx p)
  | DoExport => snd (Rich.exportBtn_click p)
  | DoClearAll answer => snd (Rich.clearAllBtn_click answer p)
  | DoReload => snd (Rich.renderPunchList (reopen p))
  end.

(** The pages a user can reach from the first visit, when nothing is
    stored yet. *)
Inductive reachable : page -> Prop :=
| reachable_first : reachable (snd (Rich.renderPunchList (page_with None [])))
| reachable_step a p : reachable p -> reachable (step a p).

(** The same for the simpler script, which has neither delete buttons nor
    clear-all. *)
Definition simple_step (a : action) (p : page) : page :=
  match a with
  | DoSubmit value dateStr =>
    snd (Simple.punchForm_submit dateStr (set_punchInput_value value p))
  | DoExport => snd (Simple.exportBtn_click p)
  | DoReload => snd (Simple.renderPunchList (reopen p))
  | DoDelete _ | DoClearAll _ => p
  end.

Inductive simple_reachable : page -> Prop :=
| simple_reachable_first :
    simple_reachable (snd (Simple.renderPunchList (page_with None [])))
| simple_reachable_step a p :
    simple_reachable p -> simple_reachable (simple_step a p).

(** The page stores the log [log] and shows it: the rows are those of a
    rendering of [log], their buttons bound to an array equal to it. *)
Definition shows (log : list Entry) (p : page) : Prop :=
  load p = Normal (log_value log)
  /\ exists ref, punchList p = rich_rows ref 0 (rev log)
                 /\ arrays p !! ref = Some (List.map entry_value log).

(** What the user sees and what persists: everything but the buttons of
    the rows and the arrays their closures keep. *)
Definition view (p : page)
  : gmap jsstring jsstring * jsstring * list jsstring * list anchor
    * list (option Blob) * list output :=
  (localStorage p, punchInput_value p, List.map innerHTML (punchList p),
   body p, blob_urls p, outputs p).

(** Two runs, one of each script, agree: same completion, same view. *)
Definition agree {A} (simple rich : completion A * page) : Prop :=
  fst simple = fst rich /\ view (snd simple) = view (snd rich).

End Log.

(** ** Rendering whatever the storage holds

    [forEach] stops at the first element whose markup cannot be computed;
    the rows made before it stay. *)
Section Behaviour.
Context `{NumberOps}.

(** The markups of the rows a rendering loop over [items] appends, and
    how the loop ends. *)
Fixpoint rows_markup (items : list jsval) : list jsstring * completion unit :=
  match items with
  | [] => ([], Normal tt)
  | item :: items' =>
    match row_markup item with
    | Normal markup =>
      (markup :: fst (rows_markup items'), snd (rows_markup items'))
    | Throw e => ([], Throw e)
    end
  end.

(** A row of the simpler script, and the rows of the richer one, from
    their markups. *)
Definition plain_li (markup : jsstring) : li :=
  {| innerHTML := markup; delBtn := None |}.

Fixpoint button_lis (ref idx : nat) (markups : list jsstring) : list li :=
  match markups with
  | [] => []
  | markup :: markups' =>
    {| innerHTML := markup;
       delBtn := Some {| textContent := utf16 "删除";
                         style_marginLeft := utf16 "10px";
                         onclick := {| captured_data := ref; captured_idx := idx |} |} |}
    :: button_lis ref (S idx) markups'
  end.

(** The array [getPunchData] returns on the page, if it returns one. *)
Definition stored_array (p : page) : completion (list jsval) :=
  completion_bind (load p) array_receiver.

(** The page of the simpler script stores the log [log] and shows it. *)
Definition simple_shows (log : list Entry) (p : page) : Prop :=
  load p = Normal (log_value log)
  /\ punchList p = List.map simple_row (rev log).

(** The text of an entry as the submit listener makes it: not empty, no
    white space at either end. *)
Definition trimmed (s : jsstring) : Prop := s <> [] /\ trim s = s.

(** The log as a list, and what each action makes of it: the abstract
    machine the scripts implement. *)
Definition next_log (a : action) (log : list Entry) : list Entry :=
  match a with
  | DoSubmit value dateStr =>
    match trim value with
    | [] => log
    | c :: text' => log ++ [ {| text := c :: text'; date := dateStr |} ]
    end
  | DoDelete displayIdx =>
    if Nat.ltb displayIdx (List.length log)
    then without (List.length log - 1 - displayIdx) log
    else log
  | DoClearAll true => []
  | DoClearAll false => log
  | DoExport => log
  | DoReload => log
  end.

Definition simple_next_log (a : action) (log : list Entry) : list Entry :=
  match a with
  | DoSubmit value dateStr => next_log a log
  | _ => log
  end.

(** A session: the actions of a user, one after the other. *)
Definition run (actions : list action) (p : page) : page :=
  fold_left (fun q a => step a q) actions p.

Definition simple_run (actions : list action) (p : page) : page :=
  fold_left (fun q a => simple_step a q) actions p.

Definition log_after (actions : list action) (log : list Entry) : list Entry :=
  fold_left (fun l a => next_log a l) actions log.

Definition simple_log_after (actions : list action) (log : list Entry)
  : list Entry :=
  fold_left (fun l a => simple_next_log a l) actions log.

(** A stored element that has neither [text] nor [date]: an object
    without these keys, or a string, a number, a boolean or an array. *)
Definition lacks_fields (item : jsval) : Prop :=
  match item with
  | JNull => False
  | JObj ps => get_own (utf16 "text") ps = None /\ get_own (utf16 "date") ps = None
  | JBool _ | JNum _ | JStr _ | JArr _ => True
  end.

(** The markup of a row whose entry has neither [text] nor [date]. *)
Definition undefined_markup : jsstring :=
  utf16 "<span>undefined</span><span class=" ++ [34] ++ utf16 "date" ++ [34]
  ++ utf16 ">undefined</span>".

(** The line of the report for such an entry at 1-based position [i]. *)
Definition undefined_line (i : nat) : jsstring :=
  utf16 "【" ++ decimal i ++ utf16 "】undefined：undefined" ++ [10].

Fixpoint undefined_report_from (i n : nat) : jsstring :=
  match n with
  | O => []
  | S n' => undefined_line i ++ undefined_report_from (S i) n'
  end.

End Behaviour.

(** A number model to run the scripts on concrete pages: a Number is kept
    as the token it was read from. *)
Definition token_numbers : NumberOps :=
  {| number := jsstring;
     StringToNumber := fun token => token;
     Number_toString := fun token => token;
     Number_isFinite := fun _ => true;
     Number_isZero := fun token => jsstring_eqb token [48] |}.

(** ** Proof steps used throughout *)

(** Unfold the monad's primitives and the setters of [page]. *)
Ltac unfold_page :=
  unfold ret, lift, read, modify, set_localStorage, set_punchInput_value,
    set_punchList, set_body, set_blob_urls, set_arrays, add_output;
  cbn [localStorage punchInput_value punchList body blob_urls arrays outputs
       fst snd].

(** From equal views to equal fields, and back. *)
Ltac view_inj Hview :=
  match type of Hview with
  | view ?ps = view ?pr =>
    destruct ps, pr; unfold view in Hview; cbn in Hview;
    injection Hview as -> -> ? -> -> ->
  end.

Ltac view_done :=
  unfold view, localStorage_getItem, localStorage_setItem, alert,
    URL_createObjectURL, URL_revokeObjectURL, body_appendChild,
    body_removeChild, punchList_clear, punchList_appendChild, bind;
  unfold_page;
  rewrite ?map_app; cbn [List.map]; congruence.

(** * Properties *)

(** ** Strings *)

Example utf16_ascii : utf16 "punchData" = [112; 117; 110; 99; 104; 68; 97; 116; 97].
Proof. reflexivity. Qed.

Example utf16_cjk : utf16 "【1】：删除" = [12304; 49; 12305; 65306; 21024; 38500].
Proof. reflexivity. Qed.

Example trim_ideographic_space : trim (utf16 "　 a b 　") = utf16 "a b".
Proof. reflexivity. Qed.

Example decimal_12 : decimal 12 = utf16 "12".
Proof. reflexivity. Qed.

(** ** Strings survive [JSON.stringify] and [JSON.parse] *)

Lemma hex_value_digit n : n < 16 -> hex_value (hex_digit n) = Some n.
Proof.
  intros Hn.
  destruct n as [|p]; [reflexivity|].
  do 4 (destruct p as [p|p|]; try reflexivity); lia.
Qed.

Lemma hex4_UnicodeEscape c :
  c < 65536 ->
  hex4 (hex_digit (c / 4096 mod 16)) (hex_digit (c / 256 mod 16))
       (hex_digit (c / 16 mod 16)) (hex_digit (c mod 16)) = Some c.
Proof.
  intros Hc. unfold hex4.
  rewrite !hex_value_digit by (apply N.mod_lt; lia).
  f_equal.
  assert (H4096 : c / 4096 mod 16 = c / 4096).
  { apply N.mod_small. apply N.Div0.div_lt_upper_bound. lia. }
  rewrite H4096.
  pose proof (N.div_mod c 16 ltac:(lia)) as H0.
  pose proof (N.div_mod (c / 16) 16 ltac:(lia)) as H1.
  pose proof (N.div_mod (c / 16 / 16) 16 ltac:(lia)) as H2.
  rewrite !N.Div0.div_div in H1, H2. simpl in H1, H2.
  change (16 * 16) with 256 in *.
  assert (H3 : c / 256 / 16 = c / 4096) by (rewrite N.Div0.div_div; reflexivity).
  rewrite H3 in H2. lia.
Qed.

Lemma string_chars_raw c k :
  c <> 34 -> c <> 92 -> 32 <= c ->
  string_chars (c :: k) = cons_unit c (string_chars k).
Proof.
  intros H34 H92 H32. simpl.
  destruct (N.eqb_spec c 34); [contradiction|].
  destruct (N.eqb_spec c 92); [contradiction|].
  destruct (N.ltb_spec c 32); [lia|]. reflexivity.
Qed.

Lemma string_chars_short c e k :
  short_escape c = Some e ->
  string_chars (92 :: e :: k) = cons_unit c (string_chars k).
Proof.
  unfold short_escape. intros He.
  repeat match type of He with
         | (if ?x =? ?y then _ else _) = _ =>
           destruct (N.eqb_spec x y);
           [injection He as <-; subst c; reflexivity|]
         end.
  discriminate.
Qed.

Lemma string_chars_unicode c k :
  c < 65536 ->
  string_chars (UnicodeEscape c ++ k) = cons_unit c (string_chars k).
Proof.
  intros Hc. unfold UnicodeEscape.
  change (string_chars (_ ++ k)) with
    (match hex4 (hex_digit (c / 4096 mod 16)) (hex_digit (c / 256 mod 16))
                (hex_digit (c / 16 mod 16)) (hex_digit (c mod 16)) with
     | Some u => cons_unit u (string_chars k)
     | None => None
     end).
  rewrite hex4_UnicodeEscape by assumption. reflexivity.
Qed.

Lemma short_escape_None c :
  short_escape c = None -> c <> 34 /\ c <> 92.
Proof.
  unfold short_escape. intros He.
  repeat match type of He with
         | (if ?x =? ?y then _ else _) = _ =>
           destruct (N.eqb_spec x y); [discriminate|]
         end.
  split; assumption.
Qed.

(** A quoted string, whatever follows its closing quote, is read back as
    the string. *)
Lemma string_chars_quote_units s k :
  string_chars (quote_units s ++ 34 :: k) = Some (s, k).
Proof.
  enough (Hboth : string_chars (quote_units s ++ 34 :: k) = Some (s, k)
                  /\ forall c, string_chars (quote_units (c :: s) ++ 34 :: k)
                               = Some (c :: s, k)) by apply Hboth.
  induction s as [|d s [IHs IHc]].
  - assert (Hnil : string_chars (34 :: k) = Some ([], k)) by reflexivity.
    split; [exact Hnil|].
    intros c. cbn [quote_units].
    destruct (short_escape c) as [e|] eqn:He.
    + cbn [app]. rewrite (string_chars_short c e) by assumption.
      rewrite Hnil. reflexivity.
    + destruct (short_escape_None c He) as [H34 H92].
      destruct (N.ltb_spec c 32) as [Hlt|Hge].
      { rewrite <- app_assoc, string_chars_unicode by lia.
        cbn [app]. rewrite Hnil. reflexivity. }
      unfold is_lead_surrogate, is_trail_surrogate.
      destruct (N.leb_spec 55296 c), (N.leb_spec c 56319); cbn [andb].
      all: try (destruct (N.leb_spec 56320 c), (N.leb_spec c 57343); cbn [andb]).
      all: first
        [ rewrite string_chars_unicode by lia; rewrite Hnil; reflexivity
        | rewrite <- app_assoc, string_chars_unicode by lia;
          cbn [app]; rewrite Hnil; reflexivity
        | cbn [app]; rewrite string_chars_raw by lia; rewrite Hnil; reflexivity ].
  - split; [apply IHc|].
    intros c. specialize (IHc d).
    cbn [quote_units] in IHc |- *.
    destruct (short_escape c) as [e|] eqn:He.
    + cbn [app]. rewrite (string_chars_short c e) by assumption.
      rewrite IHc. reflexivity.
    + destruct (short_escape_None c He) as [H34 H92].
      destruct (N.ltb_spec c 32) as [Hlt|Hge].
      { rewrite <- app_assoc, string_chars_unicode by lia.
        rewrite IHc. reflexivity. }
      unfold is_lead_surrogate at 1.
      destruct (N.leb_spec 55296 c), (N.leb_spec c 56319); cbn [andb].
      * unfold is_trail_surrogate at 1.
        destruct (N.leb_spec 56320 d), (N.leb_spec d 57343); cbn [andb].
        all: first
          [ rewrite <- app_assoc, string_chars_unicode by lia;
            rewrite IHc; reflexivity
          | idtac ].
        cbn [app]. rewrite string_chars_raw by lia.
        rewrite string_chars_raw by lia.
        rewrite IHs. reflexivity.
      * unfold is_trail_surrogate at 1.
        destruct (N.leb_spec 56320 c), (N.leb_spec c 57343); cbn [andb].
        all: first
          [ rewrite <- app_assoc, string_chars_unicode by lia;
            rewrite IHc; reflexivity
          | cbn [app]; rewrite string_chars_raw by lia; rewrite IHc; reflexivity ].
      * unfold is_trail_surrogate at 1.
        destruct (N.leb_spec 56320 c), (N.leb_spec c 57343); cbn [andb].
        all: first
          [ rewrite <- app_assoc, string_chars_unicode by lia;
            rewrite IHc; reflexivity
          | cbn [app]; rewrite string_chars_raw by lia; rewrite IHc; reflexivity ].
      * lia.
Qed.

(** ** The descent never runs out of fuel *)

Lemma skip_ws_length s : (List.length (skip_ws s) <= List.length s)%nat.
Proof.
  induction s as [|c s IH]; simpl; [lia|].
  destruct (is_json_ws c); simpl; lia.
Qed.

Lemma cons_unit_Some c r str rest :
  cons_unit c r = Some (str, rest) ->
  exists str', r = Some (str', rest) /\ str = c :: str'.
Proof.
  destruct r as [[str' rest']|]; simpl; [|discriminate].
  intros [= <- <-]. eauto.
Qed.

Lemma string_chars_length s :
  forall str rest, string_chars s = Some (str, rest) ->
                   (List.length rest < List.length s)%nat.
Proof.
  remember (List.length s) as n eqn:Hn. revert s Hn.
  induction n as [n IH] using lt_wf_ind.
  intros s -> str rest. destruct s as [|c s1]; [discriminate|].
  cbn [string_chars].
  destruct (c =? 34).
  { intros [= <- <-]. simpl. lia. }
  destruct (c =? 92).
  - destruct s1 as [|e s2]; [discriminate|].
    destruct (e =? 117).
    + destruct s2 as [|h3 [|h2 [|h1 [|h0 s6]]]]; try discriminate.
      destruct (hex4 h3 h2 h1 h0); [|discriminate].
      intros Hc. apply cons_unit_Some in Hc as (str' & Hc & _).
      eapply IH in Hc; [|simpl|reflexivity]; simpl in *; lia.
    + destruct (unescape e); [|discriminate].
      intros Hc. apply cons_unit_Some in Hc as (str' & Hc & _).
      eapply IH in Hc; [|simpl|reflexivity]; simpl in *; lia.
  - destruct (c <? 32); [discriminate|].
    intros Hc. apply cons_unit_Some in Hc as (str' & Hc & _).
    eapply IH in Hc; [|simpl|reflexivity]; simpl in *; lia.
Qed.

Lemma span_digits_length s :
  (List.length (snd (span_digits s)) <= List.length s)%nat.
Proof.
  induction s as [|c s IH]; simpl; [lia|].
  destruct (is_digit c); simpl; [|lia].
  destruct (span_digits s); simpl in *; lia.
Qed.

Lemma scan_int_length s t rest :
  scan_int s = Some (t, rest) -> (List.length rest < List.length s)%nat.
Proof.
  destruct s as [|c s]; simpl; [discriminate|].
  destruct (c =? 48); [intros [= <- <-]; lia|].
  destruct (is_digit c); [|discriminate].
  pose proof (span_digits_length s) as Hs.
  destruct (span_digits s); intros [= <- <-]; simpl in *; lia.
Qed.

Lemma scan_frac_length s t rest :
  scan_frac s = Some (t, rest) -> (List.length rest <= List.length s)%nat.
Proof.
  destruct s as [|c s]; simpl; [intros [= <- <-]; simpl; lia|].
  destruct (c =? 46); [|intros [= <- <-]; simpl; lia].
  pose proof (span_digits_length s) as Hs.
  destruct (span_digits s) as [[|d ds] r]; [discriminate|].
  intros [= <- <-]; simpl in *; lia.
Qed.

Lemma scan_exp_length s t rest :
  scan_exp s = Some (t, rest) -> (List.length rest <= List.length s)%nat.
Proof.
  destruct s as [|c s]; simpl; [intros [= <- <-]; simpl; lia|].
  destruct ((c =? 101) || (c =? 69)); [|intros [= <- <-]; simpl; lia].
  destruct s as [|g t0].
  - simpl. discriminate.
  - destruct ((g =? 43) || (g =? 45)).
    + pose proof (span_digits_length t0) as Hs.
      destruct (span_digits t0) as [[|d ds] r]; [discriminate|].
      intros [= <- <-]; simpl in *; lia.
    + pose proof (span_digits_length (g :: t0)) as Hs.
      destruct (span_digits (g :: t0)) as [[|d ds] r]; [discriminate|].
      intros [= <- <-]; simpl in *; lia.
Qed.

Lemma scan_number_length s t rest :
  scan_number s = Some (t, rest) -> (List.length rest < List.length s)%nat.
Proof.
  unfold scan_number.
  assert (Hminus : forall s0 m, (List.length s0 <= List.length s)%nat ->
    match scan_int s0 with
    | Some (i, s1) =>
      match scan_frac s1 with
      | Some (f, s2) =>
        match scan_exp s2 with
        | Some (e, s3) => Some (m ++ i ++ f ++ e, s3)
        | None => None
        end
      | None => None
      end
    | None => None
    end = Some (t, rest) -> (List.length rest < List.length s)%nat).
  { intros s0 m Hs0.
    destruct (scan_int s0) as [[i s1]|] eqn:Hi; [|discriminate].
    destruct (scan_frac s1) as [[f s2]|] eqn:Hf; [|discriminate].
    destruct (scan_exp s2) as [[e s3]|] eqn:He; [|discriminate].
    intros [= _ <-].
    apply scan_int_length in Hi. apply scan_frac_length in Hf.
    apply scan_exp_length in He. lia. }
  destruct s as [|c s']; [apply Hminus; lia|].
  destruct (c =? 45); apply Hminus; simpl; lia.
Qed.

Lemma strip_prefix_length p : forall s rest,
  strip_prefix p s = Some rest ->
  (List.length rest + List.length p = List.length s)%nat.
Proof.
  induction p as [|a p IH]; intros s rest; simpl.
  - intros [= <-]. lia.
  - destruct s as [|b s]; [discriminate|].
    destruct (a =? b); [|discriminate].
    intros Hp. apply IH in Hp. simpl. lia.
Qed.

Section ParseFuel.
Context `{NumberOps}.

Lemma parse_fuel fuel :
  (forall s, (2 * List.length s < fuel)%nat -> consumes s (parse_value fuel s))
  /\ (forall s, (2 * List.length s + 1 < fuel)%nat ->
                consumes s (parse_elements fuel s))
  /\ (forall s, (2 * List.length s + 1 < fuel)%nat ->
                consumes s (parse_members fuel s)).
Proof.
  induction fuel as [|fuel (IHv & IHe & IHm)].
  { repeat split; intros s Hs; lia. }
  split; [|split]; intros s Hs.
  - cbn [parse_value].
    pose proof (skip_ws_length s) as Hws.
    destruct (skip_ws s) as [|c s1] eqn:Es; [exact I|].
    simpl in Hws.
    destruct (c =? 123).
    { pose proof (skip_ws_length s1) as Hws1.
      destruct (skip_ws s1) as [|c1 s2] eqn:Es1; [exact I|].
      simpl in Hws1.
      destruct (c1 =? 125); [simpl; lia|].
      specialize (IHm s1 ltac:(lia)).
      destruct (parse_members fuel s1); simpl in *; try assumption. lia. }
    destruct (c =? 91).
    { pose proof (skip_ws_length s1) as Hws1.
      destruct (skip_ws s1) as [|c1 s2] eqn:Es1; [exact I|].
      simpl in Hws1.
      destruct (c1 =? 93); [simpl; lia|].
      specialize (IHe s1 ltac:(lia)).
      destruct (parse_elements fuel s1); simpl in *; try assumption. lia. }
    destruct (c =? 34).
    { destruct (string_chars s1) as [[str rest]|] eqn:Hstr; [|exact I].
      apply string_chars_length in Hstr. simpl. lia. }
    destruct ((c =? 45) || is_digit c).
    { destruct (scan_number (c :: s1)) as [[t rest]|] eqn:Hnum; [|exact I].
      apply scan_number_length in Hnum. simpl in *. lia. }
    assert (Hlit : forall word v,
      utf16 word <> [] -> consumes s (literal word v (c :: s1))).
    { intros word v Hw. unfold literal.
      destruct (strip_prefix (utf16 word) (c :: s1)) as [rest|] eqn:Hp;
        simpl; [|trivial].
      apply strip_prefix_length in Hp.
      destruct (utf16 word); [congruence|]. simpl in Hp. lia. }
    destruct (c =? 116); [apply Hlit; discriminate|].
    destruct (c =? 102); [apply Hlit; discriminate|].
    destruct (c =? 110); [apply Hlit; discriminate|].
    exact I.
  - cbn [parse_elements].
    specialize (IHv s ltac:(lia)).
    destruct (parse_value fuel s) as [v s1| |]; simpl in IHv; try assumption.
    pose proof (skip_ws_length s1) as Hws.
    destruct (skip_ws s1) as [|c s2] eqn:Es; [exact I|].
    simpl in Hws.
    destruct (c =? 44).
    { specialize (IHe s2 ltac:(lia)).
      destruct (parse_elements fuel s2); simpl in *; try assumption. lia. }
    destruct (c =? 93); simpl; [lia|trivial].
  - cbn [parse_members].
    pose proof (skip_ws_length s) as Hws.
    destruct (skip_ws s) as [|q s1] eqn:Es; [exact I|].
    simpl in Hws.
    destruct (q =? 34); [|exact I].
    destruct (string_chars s1) as [[key s2]|] eqn:Hkey; [|exact I].
    apply string_chars_length in Hkey.
    pose proof (skip_ws_length s2) as Hws2.
    destruct (skip_ws s2) as [|colon s3] eqn:Es2; [exact I|].
    simpl in Hws2.
    destruct (colon =? 58); [|exact I].
    specialize (IHv s3 ltac:(lia)).
    destruct (parse_value fuel s3) as [v s4| |]; simpl in IHv; try assumption.
    pose proof (skip_ws_length s4) as Hws4.
    destruct (skip_ws s4) as [|c s5] eqn:Es4; [exact I|].
    simpl in Hws4.
    destruct (c =? 44).
    { specialize (IHm s5 ltac:(lia)).
      destruct (parse_members fuel s5); simpl in *; try assumption. lia. }
    destruct (c =? 125); simpl; [lia|trivial].
Qed.

(** [JSON_parse] gives its descent enough fuel. *)
Lemma parse_value_fuel text :
  parse_value (2 * List.length text + 1) text <> OutOfFuel.
Proof.
  destruct (parse_fuel (2 * List.length text + 1)) as [Hv _].
  specialize (Hv text ltac:(lia)).
  intros Hout. rewrite Hout in Hv. exact Hv.
Qed.

End ParseFuel.

(** ** A log survives [JSON.stringify] and [JSON.parse] *)

Lemma quote_text : QuoteJSONString (utf16 "text") = [34; 116; 101; 120; 116; 34].
Proof. reflexivity. Qed.

Lemma quote_date : QuoteJSONString (utf16 "date") = [34; 100; 97; 116; 101; 34].
Proof. reflexivity. Qed.

Section RoundTrip.
Context `{NumberOps}.

Lemma stringify_entry_app e k :
  JSON_stringify (entry_value e) ++ k
  = 123 :: 34 :: 116 :: 101 :: 120 :: 116 :: 34 :: 58 :: 34 ::
    quote_units (text e)
    ++ 34 :: 44 :: 34 :: 100 :: 97 :: 116 :: 101 :: 34 :: 58 :: 34 ::
    quote_units (date e) ++ 34 :: 125 :: k.
Proof.
  unfold entry_value, entry_object.
  cbn [JSON_stringify List.map join_comma fst snd].
  rewrite quote_text, quote_date. unfold QuoteJSONString.
  cbn [app]. repeat (rewrite <- !app_assoc; cbn [app]). reflexivity.
Qed.

Lemma parse_value_entry fuel e k :
  parse_value (4 + fuel) (JSON_stringify (entry_value e) ++ k)
  = Parsed (entry_value e) k.
Proof.
  rewrite stringify_entry_app.
  cbn.
  rewrite string_chars_quote_units. cbn.
  rewrite string_chars_quote_units. cbn.
  reflexivity.
Qed.

Lemma parse_elements_log es : forall e fuel k,
  (List.length es <= fuel)%nat ->
  parse_elements (5 + fuel)
    (join_comma (List.map JSON_stringify (List.map entry_value (e :: es))) ++ 93 :: k)
  = Parsed (List.map entry_value (e :: es)) k.
Proof.
  induction es as [|e' es IH]; intros e fuel k Hfuel.
  - change (5 + fuel)%nat with (S (4 + fuel)).
    cbn [List.map join_comma parse_elements].
    rewrite parse_value_entry. reflexivity.
  - destruct fuel as [|fuel]; [simpl in Hfuel; lia|].
    change (5 + S fuel)%nat with (S (4 + S fuel)).
    change (List.map JSON_stringify (List.map entry_value (e :: e' :: es)))
      with (JSON_stringify (entry_value e)
            :: List.map JSON_stringify (List.map entry_value (e' :: es))).
    cbn [join_comma parse_elements]. cbn [List.map].
    rewrite <- app_assoc. rewrite parse_value_entry.
    cbn [app skip_ws is_json_ws N.eqb Pos.eqb orb].
    change (4 + S fuel)%nat with (5 + fuel)%nat.
    change (JSON_stringify (entry_value e')
            :: List.map JSON_stringify (List.map entry_value es))
      with (List.map JSON_stringify (List.map entry_value (e' :: es))).
    rewrite IH by (simpl in Hfuel; lia). reflexivity.
Qed.

Lemma join_comma_length (parts : list jsstring) :
  Forall (fun p => p <> []) parts ->
  (List.length parts <= List.length (join_comma parts))%nat.
Proof.
  induction 1 as [|p parts Hp Hparts IH]; [simpl; lia|].
  destruct p as [|c p]; [congruence|].
  destruct parts as [|q parts]; [simpl; lia|].
  cbn [join_comma]. rewrite length_app. simpl in *. lia.
Qed.

(** [JSON.parse(JSON.stringify(log))] is [log]. *)
Lemma JSON_parse_stringify_log log :
  JSON_parse (JSON_stringify (log_value log)) = Normal (log_value log).
Proof.
  destruct log as [|e es]; [reflexivity|].
  unfold JSON_parse, log_value.
  cbn [JSON_stringify].
  set (body := join_comma (List.map JSON_stringify (List.map entry_value (e :: es)))).
  assert (Hlen : (List.length (e :: es) <= List.length body)%nat).
  { subst body.
    eapply Nat.le_trans; [|apply join_comma_length].
    { rewrite !length_map. lia. }
    apply List.Forall_forall. intros p Hp.
    apply in_map_iff in Hp as (v & <- & Hv).
    apply in_map_iff in Hv as (e0 & <- & _).
    rewrite <- (app_nil_r (JSON_stringify _)), stringify_entry_app. discriminate. }
  set (json := 91 :: body ++ [93]).
  assert (Hfuel : exists n : nat,
             (2 * List.length json + 1)%nat = S (5 + n)
             /\ (List.length es <= n)%nat).
  { exists (2 * List.length body - 1)%nat. subst json.
    cbn [List.length] in Hlen |- *. rewrite length_app. simpl. lia. }
  destruct Hfuel as (n & -> & Hn). subst json.
  assert (Hhead : exists tail, body ++ [93] = 123 :: tail).
  { subst body. destruct es as [|e' es].
    - cbn [List.map join_comma]. rewrite stringify_entry_app. eauto.
    - change (List.map JSON_stringify (List.map entry_value (e :: e' :: es)))
        with (JSON_stringify (entry_value e)
              :: List.map JSON_stringify (List.map entry_value (e' :: es))).
      cbn [join_comma]. cbn [List.map].
      rewrite <- app_assoc, stringify_entry_app. eauto. }
  destruct Hhead as (tail & Htail).
  cbn [parse_value skip_ws is_json_ws N.eqb Pos.eqb orb].
  rewrite Htail.
  cbn [skip_ws is_json_ws N.eqb Pos.eqb orb].
  rewrite <- Htail. subst body.
  rewrite parse_elements_log by assumption.
  reflexivity.
Qed.

End RoundTrip.

(** ** Running the scripts *)

Section Run.
Context `{NumberOps}.

Lemma getPunchData_run p : Rich.getPunchData p = (load p, p).
Proof.
  unfold load, Rich.getPunchData, bind, localStorage_getItem, read.
  destruct (localStorage p !! utf16 "punchData") as [raw|];
    [destruct (truthy raw)|]; reflexivity.
Qed.

Lemma getPunchData_same : Simple.getPunchData = Rich.getPunchData.
Proof. reflexivity. Qed.

Lemma savePunchData_same : Simple.savePunchData = Rich.savePunchData.
Proof. reflexivity. Qed.

Lemma load_lookup p :
  load p = match localStorage p !! utf16 "punchData" with
           | Some raw => if truthy raw then JSON_parse raw else Normal (JArr [])
           | None => Normal (JArr [])
           end.
Proof.
  unfold load, Rich.getPunchData, bind, localStorage_getItem, read.
  destruct (localStorage p !! utf16 "punchData") as [raw|];
    [destruct (truthy raw)|]; reflexivity.
Qed.

Lemma savePunchData_run data p :
  Rich.savePunchData data p
  = (Normal tt, set_localStorage (insert (utf16 "punchData") (JSON_stringify data)) p).
Proof. reflexivity. Qed.

Lemma load_saved_log log p :
  load (set_localStorage (insert (utf16 "punchData") (JSON_stringify (log_value log))) p)
  = Normal (log_value log).
Proof.
  rewrite load_lookup. cbn [localStorage set_localStorage].
  rewrite lookup_insert_eq.
  rewrite JSON_parse_stringify_log. reflexivity.
Qed.

Lemma row_markup_entry e : row_markup (entry_value e) = Normal (entry_markup e).
Proof. reflexivity. Qed.

Lemma export_line_entry e idx :
  export_line (entry_value e) idx = Normal (report_line (idx + 1) e).
Proof. reflexivity. Qed.

End Run.

(** ** Rendering a log *)

Section Render.
Context `{NumberOps}.

Lemma forEach_simple log : forall idx p,
  forEach (List.map entry_value log) idx
    (fun item _ =>
       bind (lift (row_markup item))
            (fun markup => punchList_appendChild {| innerHTML := markup; delBtn := None |}))
    p
  = (Normal tt, set_punchList (fun rows => rows ++ List.map simple_row log) p).
Proof.
  induction log as [|e log IH]; intros idx p.
  - destruct p. cbn [List.map forEach rich_rows]. unfold_page.
    rewrite app_nil_r. reflexivity.
  - cbn [List.map forEach]. unfold bind at 1.
    unfold bind at 1. rewrite row_markup_entry.
    cbn [lift punchList_appendChild modify].
    rewrite IH. destruct p. unfold_page.
    cbn [List.map rich_rows]. rewrite <- app_assoc. reflexivity.
Qed.

Lemma forEach_rich ref log : forall idx p,
  forEach (List.map entry_value log) idx
    (fun item idx =>
       bind (lift (row_markup item))
            (fun markup =>
               punchList_appendChild
                 {| innerHTML := markup;
                    delBtn := Some {| textContent := utf16 "删除";
                                      style_marginLeft := utf16 "10px";
                                      onclick := {| captured_data := ref;
                                                    captured_idx := idx |} |} |}))
    p
  = (Normal tt, set_punchList (fun rows => rows ++ rich_rows ref idx log) p).
Proof.
  induction log as [|e log IH]; intros idx p.
  - destruct p. cbn [List.map forEach rich_rows]. unfold_page.
    rewrite app_nil_r. reflexivity.
  - cbn [List.map forEach]. unfold bind at 1.
    unfold bind at 1. rewrite row_markup_entry.
    cbn [lift punchList_appendChild modify].
    rewrite IH. destruct p. unfold_page.
    cbn [List.map rich_rows]. rewrite <- app_assoc. reflexivity.
Qed.

Lemma Simple_render_log log p :
  load p = Normal (log_value log) ->
  Simple.renderPunchList p
  = (Normal tt, set_punchList (fun _ => List.map simple_row (rev log)) p).
Proof.
  intros Hload. unfold Simple.renderPunchList.
  unfold bind at 1. rewrite getPunchData_same, getPunchData_run, Hload.
  unfold bind at 1. cbn [punchList_clear modify].
  unfold bind at 1. cbn [lift array_receiver log_value].
  rewrite <- map_rev, forEach_simple.
  destruct p; reflexivity.
Qed.

Lemma Rich_render_log log p :
  load p = Normal (log_value log) ->
  Rich.renderPunchList p
  = (Normal tt,
     set_punchList (fun _ => rich_rows (List.length (arrays p)) 0 (rev log))
       (set_arrays (fun heap => heap ++ [List.map entry_value log]) p)).
Proof.
  intros Hload. unfold Rich.renderPunchList.
  unfold bind at 1. rewrite getPunchData_run, Hload.
  unfold bind at 1. cbn [punchList_clear modify].
  unfold bind at 1. cbn [lift array_receiver log_value].
  unfold bind at 1. cbn [new_array bind read modify ret].
  rewrite <- map_rev, forEach_rich.
  destruct p; reflexivity.
Qed.

Lemma rich_rows_markup ref log : forall idx,
  List.map innerHTML (rich_rows ref idx log) = List.map entry_markup log.
Proof.
  induction log as [|e log IH]; intros idx; [reflexivity|].
  cbn [rich_rows List.map]. rewrite IH. reflexivity.
Qed.

Lemma rich_rows_lookup ref log : forall idx i e,
  log !! i = Some e ->
  rich_rows ref idx log !! i = Some (rich_row ref (idx + i) e).
Proof.
  induction log as [|e0 log IH]; intros idx i e Hi; [discriminate|].
  destruct i as [|i]; cbn [rich_rows].
  - injection Hi as <-. rewrite Nat.add_0_r. reflexivity.
  - change (rich_rows ref (S idx) log !! i = Some (rich_row ref (idx + S i) e)).
    rewrite (IH (S idx) i e Hi). do 2 f_equal. lia.
Qed.

End Render.

(** ** Storage: round trip and what [getPunchData] does with bad data *)

(** C4.  Saving a log and loading it again gives the log back, entries and
    order unchanged: after [savePunchData(log)], [getPunchData()] returns
    an array equal to [log].  Holds in both scripts, for every list of
    entries and every page. *)
Theorem save_load_round_trip `{NumberOps} (log : list Entry) (p : page) :
  (let p' := snd (Simple.savePunchData (log_value log) p) in
   Simple.getPunchData p' = (Normal (log_value log), p'))
  /\ (let p' := snd (Rich.savePunchData (log_value log) p) in
      Rich.getPunchData p' = (Normal (log_value log), p')).
Proof.
  rewrite getPunchData_same, savePunchData_same, savePunchData_run.
  cbn [snd]. rewrite getPunchData_run, load_saved_log. split; reflexivity.
Qed.

(** C10.  When the value stored under ['punchData'] is the empty string,
    which [JSON.parse] rejects, [getPunchData] does not parse it: the
    guard [data ? ... : []] takes it for falsy, as it does the null of an
    absent key, and the result is the empty array.  Holds in both
    scripts. *)
Theorem load_empty_string `{NumberOps} (p : page) :
  localStorage p !! utf16 "punchData" = Some [] ->
  JSON_parse [] = Throw SyntaxError
  /\ Simple.getPunchData p = (Normal (JArr []), p)
  /\ Rich.getPunchData p = (Normal (JArr []), p).
Proof.
  intros Hraw. rewrite getPunchData_same, getPunchData_run, load_lookup, Hraw.
  repeat split; reflexivity.
Qed.

(** C7, amended.  A stored value that is present, not the empty string,
    and not valid JSON text makes [getPunchData] fail with the SyntaxError
    of [JSON.parse]: nothing catches it, in either script, and the page is
    left as it was.  An absent value makes it return the empty array.  A
    stored empty string is treated like an absent value: the empty array,
    no error.  A stored value that is valid JSON is returned as
    [JSON.parse] gives it, whatever it is — an array of entries, another
    array, an object, a string, a number, a boolean, null: nothing checks
    that it is an array of entries. *)
Theorem load_malformed `{NumberOps} (p : page) :
  (forall raw,
      localStorage p !! utf16 "punchData" = Some raw ->
      raw <> [] ->
      JSON_parse raw = Throw SyntaxError ->
      Simple.getPunchData p = (Throw SyntaxError, p)
      /\ Rich.getPunchData p = (Throw SyntaxError, p))
  /\ (localStorage p !! utf16 "punchData" = None ->
      Simple.getPunchData p = (Normal (JArr []), p)
      /\ Rich.getPunchData p = (Normal (JArr []), p))
  /\ (localStorage p !! utf16 "punchData" = Some [] ->
      Simple.getPunchData p = (Normal (JArr []), p)
      /\ Rich.getPunchData p = (Normal (JArr []), p))
  /\ (forall raw data,
         localStorage p !! utf16 "punchData" = Some raw ->
         raw <> [] ->
         JSON_parse raw = Normal data ->
         Simple.getPunchData p = (Normal data, p)
         /\ Rich.getPunchData p = (Normal data, p)).
Proof.
  rewrite getPunchData_same, getPunchData_run, load_lookup.
  split; [|split; [|split]].
  - intros raw -> Hraw Hparse. destruct raw; [congruence|].
    cbn [truthy]. rewrite Hparse. split; reflexivity.
  - intros ->. split; reflexivity.
  - intros ->. split; reflexivity.
  - intros raw data -> Hraw Hparse. destruct raw; [congruence|].
    cbn [truthy]. rewrite Hparse. split; reflexivity.
Qed.


(** ** Rendering *)



(** ** Export *)

Section ExportFile.
Context `{NumberOps}.

Lemma exportBtn_click_same : Simple.exportBtn_click = Rich.exportBtn_click.
Proof. reflexivity. Qed.

Lemma export_forEach_log log : forall idx content,
  export_forEach (List.map entry_value log) idx content
  = Normal (content ++ report_from (idx + 1) log).
Proof.
  induction log as [|e log IH]; intros idx content.
  - cbn. rewrite app_nil_r. reflexivity.
  - cbn [List.map export_forEach]. rewrite export_line_entry.
    cbn [completion_bind]. rewrite IH.
    cbn [report_from]. rewrite <- app_assoc. reflexivity.
Qed.

Lemma anchor_eqb_refl a : anchor_eqb a a = true.
Proof.
  unfold anchor_eqb, jsstring_eqb.
  rewrite Nat.eqb_refl, bool_decide_eq_true_2; reflexivity.
Qed.

Lemma remove_appended a children :
  rev (remove_first a (rev (children ++ [a]))) = children.
Proof.
  rewrite rev_app_distr. cbn [rev app remove_first].
  rewrite anchor_eqb_refl. apply rev_involutive.
Qed.

Lemma export_log_run log p :
  log <> [] ->
  load p = Normal (log_value log) ->
  Rich.exportBtn_click p
  = (Normal tt,
     add_output
       (Download (utf16 "punch.txt")
                 {| blob_parts := [report log]; blob_type := utf16 "text/plain" |})
       (set_blob_urls (fun store => store ++ [None]) p)).
Proof.
  intros Hne Hload. unfold Rich.exportBtn_click.
  unfold bind at 1. rewrite getPunchData_run, Hload.
  destruct log as [|e log]; [congruence|].
  unfold bind, lift, log_value. cbn [length_is_zero array_receiver].
  rewrite export_forEach_log. cbn [app Nat.add List.map List.length Nat.eqb].
  unfold URL_createObjectURL, body_appendChild, anchor_click, body_removeChild,
    URL_revokeObjectURL, bind.
  unfold_page. cbn [href download]. cbn beta.
  rewrite list_lookup_middle by reflexivity.
  unfold_page.
  rewrite remove_appended.
  rewrite insert_app_r_alt by lia.
  rewrite Nat.sub_diag. cbn [insert list_insert].
  destruct p; reflexivity.
Qed.

Lemma export_empty_run p :
  load p = Normal (JArr []) ->
  Rich.exportBtn_click p
  = (Normal tt, add_output (Alert (utf16 "暂无打卡数据可导出！")) p).
Proof.
  intros Hload. unfold Rich.exportBtn_click.
  unfold bind at 1. rewrite getPunchData_run, Hload. reflexivity.
Qed.

End ExportFile.

(** C2.  On a page whose stored log [e1, ..., en] is not empty, the export
    listener offers one file, named [punch.txt], of type [text/plain],
    whose content is the lines [【i】<ei.date>：<ei.text>] for i = 1..n in
    insertion order, each ended by a line feed.  For the log
    [{text:A, date:D1}, {text:B, date:D2}] the content is
    [【1】D1：A\n【2】D2：B\n].  Holds in both scripts. *)
Theorem export_content `{NumberOps} (log : list Entry) (p : page) :
  log <> [] ->
  load p = Normal (log_value log) ->
  let file := {| blob_parts := [report log]; blob_type := utf16 "text/plain" |} in
  let p' := add_output (Download (utf16 "punch.txt") file)
              (set_blob_urls (fun store => store ++ [None]) p) in
  Simple.exportBtn_click p = (Normal tt, p')
  /\ Rich.exportBtn_click p = (Normal tt, p')
  /\ report [ {| text := utf16 "A"; date := utf16 "D1" |};
              {| text := utf16 "B"; date := utf16 "D2" |} ]
     = utf16 "【1】D1：A" ++ [10] ++ utf16 "【2】D2：B" ++ [10].
Proof.
  intros Hne Hload file p'. subst file p'.
  rewrite exportBtn_click_same, (export_log_run log p Hne Hload).
  repeat split; reflexivity.
Qed.

(** C6.  On a page whose stored log is empty, the export listener shows
    the alert [暂无打卡数据可导出！] once and does nothing else: no object
    URL is registered, no element is added to the document, no file is
    offered, [localStorage] is as it was.  Holds in both scripts. *)
Theorem export_empty_guard `{NumberOps} (p : page) :
  load p = Normal (JArr []) ->
  let p' := add_output (Alert (utf16 "暂无打卡数据可导出！")) p in
  Simple.exportBtn_click p = (Normal tt, p')
  /\ Rich.exportBtn_click p = (Normal tt, p')
  /\ outputs p' = outputs p ++ [Alert (utf16 "暂无打卡数据可导出！")]
  /\ blob_urls p' = blob_urls p
  /\ body p' = body p
  /\ localStorage p' = localStorage p.
Proof.
  intros Hload p'. subst p'.
  rewrite exportBtn_click_same, (export_empty_run p Hload).
  repeat split; reflexivity.
Qed.

(** ** Clear-all, submit, delete *)

Section Handlers.
Context `{NumberOps}.

Lemma punchForm_submit_same : Simple.punchForm_submit = fun dateStr =>
  bind (read punchInput_value) (fun value =>
    let text := trim value in
    if negb (truthy text) then ret tt
    else
      bind Rich.getPunchData (fun data =>
      bind (lift (array_receiver data)) (fun elements =>
      let data := JArr (elements ++ [entry_object text dateStr]) in
      bind (Rich.savePunchData data) (fun _ =>
      bind (modify (set_punchInput_value [])) (fun _ =>
      Simple.renderPunchList))))).
Proof. reflexivity. Qed.

Lemma log_value_snoc log e :
  JArr (List.map entry_value log ++ [entry_value e]) = log_value (log ++ [e]).
Proof. unfold log_value. rewrite map_app. reflexivity. Qed.

Lemma load_submitted log p : load (submitted log p) = Normal (log_value log).
Proof.
  unfold submitted. rewrite load_lookup. unfold_page.
  rewrite lookup_insert_eq, JSON_parse_stringify_log. reflexivity.
Qed.

Lemma Rich_submit_run log dateStr p :
  trim (punchInput_value p) <> [] ->
  load p = Normal (log_value log) ->
  Rich.punchForm_submit dateStr p
  = Rich.renderPunchList
      (submitted (log ++ [ {| text := trim (punchInput_value p); date := dateStr |} ]) p).
Proof.
  intros Htext Hload. unfold Rich.punchForm_submit.
  unfold bind at 1. cbn [read].
  destruct (trim (punchInput_value p)) as [|c text'] eqn:Htrim; [congruence|].
  cbn [truthy negb].
  unfold bind at 1. rewrite getPunchData_run, Hload.
  unfold bind at 1. cbn [lift array_receiver log_value].
  change (entry_object (c :: text') dateStr)
    with (entry_value {| text := c :: text'; date := dateStr |}).
  rewrite log_value_snoc.
  unfold bind at 1. rewrite savePunchData_run.
  unfold bind at 1. reflexivity.
Qed.

Lemma Simple_submit_run log dateStr p :
  trim (punchInput_value p) <> [] ->
  load p = Normal (log_value log) ->
  Simple.punchForm_submit dateStr p
  = Simple.renderPunchList
      (submitted (log ++ [ {| text := trim (punchInput_value p); date := dateStr |} ]) p).
Proof.
  intros Htext Hload. rewrite punchForm_submit_same.
  unfold bind at 1. cbn [read].
  destruct (trim (punchInput_value p)) as [|c text'] eqn:Htrim; [congruence|].
  cbn [truthy negb].
  unfold bind at 1. rewrite getPunchData_run, Hload.
  unfold bind at 1. cbn [lift array_receiver log_value].
  change (entry_object (c :: text') dateStr)
    with (entry_value {| text := c :: text'; date := dateStr |}).
  rewrite log_value_snoc.
  unfold bind at 1. rewrite savePunchData_run.
  unfold bind at 1. reflexivity.
Qed.

Lemma submit_blank dateStr p :
  trim (punchInput_value p) = [] ->
  Simple.punchForm_submit dateStr p = (Normal tt, p)
  /\ Rich.punchForm_submit dateStr p = (Normal tt, p).
Proof.
  intros Htrim.
  split; [rewrite punchForm_submit_same|unfold Rich.punchForm_submit];
    unfold bind at 1, read; rewrite Htrim; reflexivity.
Qed.

Lemma splice_one (l : list jsval) (k : nat) :
  (k < List.length l)%nat ->
  splice l (Z.of_nat k) 1 = firstn k l ++ skipn (S k) l.
Proof.
  intros Hk. unfold splice.
  destruct (Z.ltb_spec (Z.of_nat k) 0) as [Hneg|_]; [lia|].
  rewrite Z.min_l by lia.
  rewrite (Z.min_l (Z.max 1 0)) by lia.
  rewrite Nat2Z.id.
  replace (Z.to_nat (Z.of_nat k + Z.max 1 0)) with (S k) by lia.
  reflexivity.
Qed.

Lemma without_value i log :
  firstn i (List.map entry_value log) ++ skipn (S i) (List.map entry_value log)
  = List.map entry_value (without i log).
Proof.
  unfold without. rewrite map_app, firstn_map, skipn_map. reflexivity.
Qed.

Lemma rev_lookup (log : list Entry) i :
  (i < List.length log)%nat ->
  rev log !! i = log !! (List.length log - 1 - i)%nat.
Proof.
  intros Hi. rewrite rev_alt.
  replace (List.length log - 1 - i)%nat with (List.length log - S i)%nat by lia.
  apply reverse_lookup. exact Hi.
Qed.

(** The page the delete button of row [i] leaves, up to the list it then
    renders. *)
Lemma Rich_delete_run log p i :
  load p = Normal (log_value log) ->
  (i < List.length log)%nat ->
  let rest := without (List.length log - 1 - i) log in
  Rich.click_delBtn i (snd (Rich.renderPunchList p))
  = Rich.renderPunchList
      (set_localStorage
         (insert (utf16 "punchData") (JSON_stringify (log_value rest)))
         (set_arrays (fun heap => <[List.length (arrays p) := List.map entry_value rest]> heap)
            (snd (Rich.renderPunchList p)))).
Proof.
  intros Hload Hi rest.
  rewrite (Rich_render_log log p Hload). cbn [snd].
  unfold Rich.click_delBtn. unfold bind at 1. unfold read at 1.
  unfold_page.
  destruct (rev log !! i) as [e|] eqn:He.
  2:{ apply lookup_ge_None in He. rewrite length_rev in He. lia. }
  rewrite (rich_rows_lookup _ _ 0 i e He).
  cbn [rich_row delBtn onclick Nat.add].
  unfold Rich.delBtn_onclick. unfold bind at 1. unfold read_array, read.
  unfold_page.
  rewrite list_lookup_middle by reflexivity.
  cbn [default from_option captured_data captured_idx]. unfold id.
  rewrite length_map.
  replace (Z.of_nat (List.length log) - 1 - Z.of_nat i)%Z
    with (Z.of_nat (List.length log - 1 - i)) by lia.
  rewrite splice_one by (rewrite length_map; lia).
  rewrite without_value. fold rest.
  unfold bind at 1. unfold write_array. unfold_page.
  unfold bind at 1. rewrite savePunchData_run.
  reflexivity.
Qed.


End Handlers.

(** C8.  Clear-all in the richer script.  When the user confirms the
    dialog, the empty array is stored, [getPunchData] returns it from then
    on, and the list shows no row.  When the user declines, the page is as
    it was: the dialog is all that happened. *)
Theorem clear_all `{NumberOps} (p : page) :
  let message := utf16 "确定要清空全部打卡数据吗？此操作不可恢复！" in
  let confirmed := Rich.clearAllBtn_click true p in
  let declined := Rich.clearAllBtn_click false p in
  fst confirmed = Normal tt
  /\ Rich.getPunchData (snd confirmed) = (Normal (JArr []), snd confirmed)
  /\ localStorage (snd confirmed) = <[utf16 "punchData" := utf16 "[]"]> (localStorage p)
  /\ punchList (snd confirmed) = []
  /\ declined = (Normal tt, add_output (Confirm message) p)
  /\ localStorage (snd declined) = localStorage p
  /\ load (snd declined) = load p.
Proof.
  intros message confirmed declined.
  assert (Hrun : confirmed
    = Rich.renderPunchList
        (set_localStorage (insert (utf16 "punchData") (JSON_stringify (log_value [])))
           (add_output (Confirm message) p))) by reflexivity.
  rewrite Hrun.
  rewrite (Rich_render_log [] _ (load_saved_log [] _)).
  rewrite getPunchData_run.
  assert (Hload : forall q, load q
    = match localStorage q !! utf16 "punchData" with
      | Some raw => if truthy raw then JSON_parse raw else Normal (JArr [])
      | None => Normal (JArr [])
      end) by apply load_lookup.
  split; [reflexivity|]. split.
  { f_equal. rewrite Hload. unfold_page. rewrite lookup_insert_eq. reflexivity. }
  split; [reflexivity|]. split; [reflexivity|]. split; [reflexivity|].
  split; [reflexivity|].
  rewrite !Hload. reflexivity.
Qed.

(** C1.  The submit listener.  When the input field holds nothing but
    white space (or nothing), the listener changes nothing at all: the
    stored log and the field are as they were.  Otherwise, on a page whose
    stored log is [log], it stores [log] followed by the one entry
    [{text: trim(value), date: dateStr}] — one entry more, the earlier
    ones unchanged and in order —, empties the field, and renders the new
    log.  Holds in both scripts. *)
Theorem submit_contract `{NumberOps} (log : list Entry) (dateStr : jsstring)
    (p : page) :
  let value := punchInput_value p in
  let entry := {| text := trim value; date := dateStr |} in
  let simple := Simple.punchForm_submit dateStr p in
  let rich := Rich.punchForm_submit dateStr p in
  (trim value = [] -> simple = (Normal tt, p) /\ rich = (Normal tt, p))
  /\ (trim value <> [] ->
      load p = Normal (log_value log) ->
      (fst simple = Normal tt
       /\ localStorage (snd simple)
          = <[utf16 "punchData" := JSON_stringify (log_value (log ++ [entry]))]>
              (localStorage p)
       /\ load (snd simple) = Normal (log_value (log ++ [entry]))
       /\ punchInput_value (snd simple) = []
       /\ List.map innerHTML (punchList (snd simple))
          = List.map entry_markup (rev (log ++ [entry])))
      /\ (fst rich = Normal tt
          /\ localStorage (snd rich)
             = <[utf16 "punchData" := JSON_stringify (log_value (log ++ [entry]))]>
                 (localStorage p)
          /\ load (snd rich) = Normal (log_value (log ++ [entry]))
          /\ punchInput_value (snd rich) = []
          /\ List.map innerHTML (punchList (snd rich))
             = List.map entry_markup (rev (log ++ [entry])))
      /\ List.length (log ++ [entry]) = S (List.length log)
      /\ last (log ++ [entry]) = Some entry).
Proof.
  intros value entry simple rich. split.
  - apply submit_blank.
  - intros Htext Hload. subst simple rich.
    rewrite (Simple_submit_run log dateStr p Htext Hload).
    rewrite (Rich_submit_run log dateStr p Htext Hload).
    fold value. fold entry.
    rewrite (Simple_render_log _ _ (load_submitted (log ++ [entry]) p)).
    rewrite (Rich_render_log _ _ (load_submitted (log ++ [entry]) p)).
    cbn [fst snd].
    assert (Hload' : forall rows heap,
      load (set_punchList rows (set_arrays heap (submitted (log ++ [entry]) p)))
      = Normal (log_value (log ++ [entry]))).
    { intros rows heap. rewrite load_lookup. unfold submitted. unfold_page.
      rewrite lookup_insert_eq, JSON_parse_stringify_log. reflexivity. }
    assert (Hload'' : forall rows,
      load (set_punchList rows (submitted (log ++ [entry]) p))
      = Normal (log_value (log ++ [entry]))).
    { intros rows. rewrite load_lookup. unfold submitted. unfold_page.
      rewrite lookup_insert_eq, JSON_parse_stringify_log. reflexivity. }
    rewrite Hload', Hload''.
    unfold submitted. unfold_page.
    rewrite rich_rows_markup, map_map.
    repeat split.
    + rewrite length_app. simpl. lia.
    + apply last_snoc.
Qed.

(** C3.  Positional delete in the richer script.  Let the stored log be
    [e1, ..., en] and let the list be rendered from it.  Row [i] (rows run
    from the newest entry to the oldest) shows the entry at index
    [n - 1 - i]; activating its delete button removes that entry and no
    other, stores what is left in the same order, and renders it again.
    For [e1, e2, e3], deleting the row at display index 1, the row of
    [e2], stores [e1, e3]. *)
Theorem delete_positional `{NumberOps} (log : list Entry) (p : page) (i : nat) :
  load p = Normal (log_value log) ->
  (i < List.length log)%nat ->
  let shown := snd (Rich.renderPunchList p) in
  let clicked := Rich.click_delBtn i shown in
  let originalIndex := (List.length log - 1 - i)%nat in
  let rest := without originalIndex log in
  innerHTML <$> (punchList shown !! i) = entry_markup <$> (log !! originalIndex)
  /\ fst clicked = Normal tt
  /\ localStorage (snd clicked)
     = <[utf16 "punchData" := JSON_stringify (log_value rest)]> (localStorage p)
  /\ load (snd clicked) = Normal (log_value rest)
  /\ List.map innerHTML (punchList (snd clicked)) = List.map entry_markup (rev rest)
  /\ S (List.length rest) = List.length log
  /\ (forall e1 e2 e3, log = [e1; e2; e3] -> i = 1%nat -> rest = [e1; e3]).
Proof.
  intros Hload Hi shown clicked originalIndex rest.
  subst clicked shown.
  rewrite (Rich_delete_run log p i Hload Hi).
  fold originalIndex. fold rest.
  rewrite (Rich_render_log log p Hload). cbn [snd].
  set (q := set_localStorage _ _).
  assert (Hq : load q = Normal (log_value rest)).
  { subst q. rewrite load_lookup. unfold_page.
    rewrite lookup_insert_eq, JSON_parse_stringify_log. reflexivity. }
  rewrite (Rich_render_log rest q Hq). cbn [fst snd].
  split; [|split; [|split; [|split; [|split; [|split]]]]].
  - unfold_page. unfold originalIndex. rewrite <- (rev_lookup log i Hi).
    destruct (rev log !! i) as [e|] eqn:He.
    + rewrite (rich_rows_lookup _ _ 0 i e He). reflexivity.
    + apply lookup_ge_None in He. rewrite length_rev in He. lia.
  - reflexivity.
  - reflexivity.
  - rewrite load_lookup. subst q. unfold_page.
    rewrite lookup_insert_eq, JSON_parse_stringify_log. reflexivity.
  - unfold_page. apply rich_rows_markup.
  - subst rest. unfold without.
    rewrite length_app, length_firstn, length_skipn.
    subst originalIndex. lia.
  - intros e1 e2 e3 -> ->. reflexivity.
Qed.

(** ** The two scripts agree *)

Section Agree.
Context `{NumberOps}.

Lemma agree_bind {A B} (ms mr : M A) (ks kr : A -> M B) ps pr :
  agree (ms ps) (mr pr) ->
  (forall a ps' pr', view ps' = view pr' -> agree (ks a ps') (kr a pr')) ->
  agree (bind ms ks ps) (bind mr kr pr).
Proof.
  unfold agree, bind. intros [Hc Hv] Hk.
  destruct (ms ps) as [[a|e] ps'], (mr pr) as [[a'|e'] pr'];
    cbn [fst snd] in *; try discriminate.
  - injection Hc as <-. apply Hk. exact Hv.
  - injection Hc as <-. split; [reflexivity|exact Hv].
Qed.

Lemma agree_ret {A} (a : A) ps pr :
  view ps = view pr -> agree (ret a ps) (ret a pr).
Proof. intros Hv. split; [reflexivity|exact Hv]. Qed.

Lemma agree_lift {A} (c : completion A) ps pr :
  view ps = view pr -> agree (lift c ps) (lift c pr).
Proof. intros Hv. split; [reflexivity|exact Hv]. Qed.

Lemma agree_getItem key ps pr :
  view ps = view pr ->
  agree (localStorage_getItem key ps) (localStorage_getItem key pr).
Proof. intros Hv. view_inj Hv. split; [reflexivity|view_done]. Qed.

Lemma agree_setItem key value ps pr :
  view ps = view pr ->
  agree (localStorage_setItem key value ps) (localStorage_setItem key value pr).
Proof. intros Hv. view_inj Hv. split; [reflexivity|view_done]. Qed.

Lemma agree_input ps pr :
  view ps = view pr ->
  agree (read punchInput_value ps) (read punchInput_value pr).
Proof. intros Hv. view_inj Hv. split; [reflexivity|view_done]. Qed.

Lemma agree_set_input v ps pr :
  view ps = view pr ->
  agree (modify (set_punchInput_value v) ps) (modify (set_punchInput_value v) pr).
Proof. intros Hv. view_inj Hv. split; [reflexivity|view_done]. Qed.

Lemma agree_clear ps pr :
  view ps = view pr -> agree (punchList_clear ps) (punchList_clear pr).
Proof. intros Hv. view_inj Hv. split; [reflexivity|view_done]. Qed.

Lemma agree_appendChild (rs rr : li) ps pr :
  innerHTML rs = innerHTML rr ->
  view ps = view pr ->
  agree (punchList_appendChild rs ps) (punchList_appendChild rr pr).
Proof.
  intros Hrow Hv. view_inj Hv. split; [reflexivity|view_done].
Qed.

Lemma agree_alert message ps pr :
  view ps = view pr -> agree (alert message ps) (alert message pr).
Proof. intros Hv. view_inj Hv. split; [reflexivity|view_done]. Qed.

Lemma agree_createObjectURL blob ps pr :
  view ps = view pr ->
  agree (URL_createObjectURL blob ps) (URL_createObjectURL blob pr).
Proof. intros Hv. view_inj Hv. split; [reflexivity|view_done]. Qed.

Lemma agree_revokeObjectURL url ps pr :
  view ps = view pr ->
  agree (URL_revokeObjectURL url ps) (URL_revokeObjectURL url pr).
Proof. intros Hv. view_inj Hv. split; [reflexivity|view_done]. Qed.

Lemma agree_body_appendChild a ps pr :
  view ps = view pr -> agree (body_appendChild a ps) (body_appendChild a pr).
Proof. intros Hv. view_inj Hv. split; [reflexivity|view_done]. Qed.

Lemma agree_body_removeChild a ps pr :
  view ps = view pr -> agree (body_removeChild a ps) (body_removeChild a pr).
Proof. intros Hv. view_inj Hv. split; [reflexivity|view_done]. Qed.

Lemma agree_anchor_click a ps pr :
  view ps = view pr -> agree (anchor_click a ps) (anchor_click a pr).
Proof.
  intros Hv. view_inj Hv. unfold anchor_click, bind, read. unfold_page.
  destruct (_ !! href a) as [[file|]|]; split; try reflexivity; view_done.
Qed.

Lemma agree_getPunchData ps pr :
  view ps = view pr -> agree (Simple.getPunchData ps) (Rich.getPunchData pr).
Proof.
  intros Hv. unfold Simple.getPunchData, Rich.getPunchData.
  apply agree_bind; [apply agree_getItem; exact Hv|].
  intros [raw|] ps' pr' Hv'; [destruct (truthy raw)|].
  - apply agree_lift; exact Hv'.
  - apply agree_ret; exact Hv'.
  - apply agree_ret; exact Hv'.
Qed.

Lemma agree_savePunchData data ps pr :
  view ps = view pr ->
  agree (Simple.savePunchData data ps) (Rich.savePunchData data pr).
Proof. apply agree_setItem. Qed.

Lemma agree_forEach ref items : forall i j ps pr,
  view ps = view pr ->
  agree
    (forEach items i
       (fun item _ =>
          bind (lift (row_markup item))
               (fun markup =>
                  punchList_appendChild {| innerHTML := markup; delBtn := None |}))
       ps)
    (forEach items j
       (fun item idx =>
          bind (lift (row_markup item))
               (fun markup =>
                  punchList_appendChild
                    {| innerHTML := markup;
                       delBtn := Some {| textContent := utf16 "删除";
                                         style_marginLeft := utf16 "10px";
                                         onclick := {| captured_data := ref;
                                                       captured_idx := idx |} |} |}))
       pr).
Proof.
  induction items as [|item items IH]; intros i j ps pr Hv.
  - apply agree_ret; exact Hv.
  - cbn [forEach]. apply agree_bind.
    + apply agree_bind; [apply agree_lift; exact Hv|].
      intros markup ps' pr' Hv'. apply agree_appendChild; [reflexivity|exact Hv'].
    + intros _ ps' pr' Hv'. apply IH; exact Hv'.
Qed.

Lemma agree_render ps pr :
  view ps = view pr ->
  agree (Simple.renderPunchList ps) (Rich.renderPunchList pr).
Proof.
  intros Hv. unfold Simple.renderPunchList, Rich.renderPunchList.
  apply agree_bind; [apply agree_getPunchData; exact Hv|].
  intros data ps1 pr1 Hv1.
  apply agree_bind; [apply agree_clear; exact Hv1|].
  intros _ ps2 pr2 Hv2.
  apply agree_bind; [apply agree_lift; exact Hv2|].
  intros elements ps3 pr3 Hv3.
  change (bind (new_array elements) ?k pr3)
    with (k (List.length (arrays pr3))
            (set_arrays (fun heap => heap ++ [elements]) pr3)).
  apply agree_forEach.
  rewrite Hv3. destruct pr3; reflexivity.
Qed.

Lemma agree_submit dateStr ps pr :
  view ps = view pr ->
  agree (Simple.punchForm_submit dateStr ps) (Rich.punchForm_submit dateStr pr).
Proof.
  intros Hv. unfold Simple.punchForm_submit, Rich.punchForm_submit.
  apply agree_bind; [apply agree_input; exact Hv|].
  intros value ps1 pr1 Hv1.
  destruct (negb (truthy (trim value))); [apply agree_ret; exact Hv1|].
  apply agree_bind; [apply agree_getPunchData; exact Hv1|].
  intros data ps2 pr2 Hv2.
  apply agree_bind; [apply agree_lift; exact Hv2|].
  intros elements ps3 pr3 Hv3.
  apply agree_bind; [apply agree_savePunchData; exact Hv3|].
  intros _ ps4 pr4 Hv4.
  apply agree_bind; [apply agree_set_input; exact Hv4|].
  intros _ ps5 pr5 Hv5.
  apply agree_render; exact Hv5.
Qed.

Lemma agree_export ps pr :
  view ps = view pr ->
  agree (Simple.exportBtn_click ps) (Rich.exportBtn_click pr).
Proof.
  intros Hv. unfold Simple.exportBtn_click, Rich.exportBtn_click.
  apply agree_bind; [apply agree_getPunchData; exact Hv|].
  intros data ps1 pr1 Hv1.
  apply agree_bind; [apply agree_lift; exact Hv1|].
  intros [|] ps2 pr2 Hv2; [apply agree_alert; exact Hv2|].
  apply agree_bind; [apply agree_lift; exact Hv2|].
  intros elements ps3 pr3 Hv3.
  apply agree_bind; [apply agree_lift; exact Hv3|].
  intros content ps4 pr4 Hv4.
  apply agree_bind; [apply agree_createObjectURL; exact Hv4|].
  intros url ps5 pr5 Hv5.
  apply agree_bind; [apply agree_body_appendChild; exact Hv5|].
  intros _ ps6 pr6 Hv6.
  apply agree_bind; [apply agree_anchor_click; exact Hv6|].
  intros _ ps7 pr7 Hv7.
  apply agree_bind; [apply agree_body_removeChild; exact Hv7|].
  intros _ ps8 pr8 Hv8.
  apply agree_revokeObjectURL; exact Hv8.
Qed.

End Agree.

(** C9.  The two scripts differ by the delete buttons and the clear-all
    listener only.  Started on pages showing and storing the same things,
    what they share — [getPunchData], [savePunchData],
    [renderPunchList], the submit listener, the export listener — ends the
    same way in both and leaves the same stored value, the same rows in
    the same order, the same input field and the same alerts and exported
    files, whatever the storage holds and whatever the user typed. *)
Theorem variants_agree `{NumberOps} (ps pr : page) (dateStr : jsstring)
    (data : jsval) :
  view ps = view pr ->
  agree (Simple.getPunchData ps) (Rich.getPunchData pr)
  /\ agree (Simple.savePunchData data ps) (Rich.savePunchData data pr)
  /\ agree (Simple.renderPunchList ps) (Rich.renderPunchList pr)
  /\ agree (Simple.punchForm_submit dateStr ps) (Rich.punchForm_submit dateStr pr)
  /\ agree (Simple.exportBtn_click ps) (Rich.exportBtn_click pr).
Proof.
  intros Hv.
  split; [apply agree_getPunchData; exact Hv|].
  split; [apply agree_savePunchData; exact Hv|].
  split; [apply agree_render; exact Hv|].
  split; [apply agree_submit; exact Hv|].
  apply agree_export; exact Hv.
Qed.

(** ** Every page a user can reach stores a log and shows it

    The theorems above assume that [getPunchData] returns a log.  On the
    pages of the richer script that a user can reach this always holds,
    and the rows on display are always those of the stored log. *)

Section Reachable.
Context `{NumberOps}.

Lemma load_only_storage p q :
  localStorage p = localStorage q -> load p = load q.
Proof. intros Hs. rewrite !load_lookup, Hs. reflexivity. Qed.

Lemma render_shows log p :
  load p = Normal (log_value log) ->
  shows log (snd (Rich.renderPunchList p)).
Proof.
  intros Hload. rewrite (Rich_render_log log p Hload). cbn [snd].
  split.
  - rewrite <- Hload. apply load_only_storage. reflexivity.
  - exists (List.length (arrays p)). unfold_page. split; [reflexivity|].
    apply list_lookup_middle. reflexivity.
Qed.

Lemma step_shows a log p :
  shows log p -> exists log', shows log' (step a p).
Proof.
  intros (Hload & ref & Hrows & Href).
  destruct a as [value dateStr|i| |answer|]; cbn [step].
  - set (q := set_punchInput_value value p).
    assert (Hq : load q = Normal (log_value log)).
    { rewrite <- Hload. apply load_only_storage. reflexivity. }
    destruct (trim (punchInput_value q)) as [|c text'] eqn:Htrim.
    + exists log.
      rewrite (proj2 (submit_blank dateStr q Htrim)). cbn [snd].
      split; [exact Hq|]. exists ref. split; assumption.
    + eexists.
      rewrite (Rich_submit_run log dateStr q) by (rewrite ?Htrim; congruence).
      apply render_shows, load_submitted.
  - unfold Rich.click_delBtn, bind, read. rewrite Hrows.
    destruct (rev log !! i) as [e|] eqn:He.
    + assert (Hi : (i < List.length log)%nat).
      { apply lookup_lt_Some in He. rewrite length_rev in He. exact He. }
      rewrite (rich_rows_lookup _ _ 0 i e He).
      cbn [rich_row delBtn onclick Nat.add].
      unfold Rich.delBtn_onclick. unfold bind at 1. unfold read_array, read.
      cbn [captured_data captured_idx]. rewrite Href.
      cbn [default from_option]. unfold id. rewrite length_map.
      replace (Z.of_nat (List.length log) - 1 - Z.of_nat i)%Z
        with (Z.of_nat (List.length log - 1 - i)) by lia.
      rewrite splice_one by (rewrite length_map; lia).
      rewrite without_value.
      change (JArr (List.map entry_value (without (List.length log - 1 - i) log)))
        with (log_value (without (List.length log - 1 - i) log)).
      unfold bind at 1. unfold write_array, modify at 1.
      unfold bind at 1. rewrite savePunchData_run.
      eexists. apply render_shows.
      rewrite load_lookup. unfold_page.
      rewrite lookup_insert_eq, JSON_parse_stringify_log. reflexivity.
    + assert (Hnone : rich_rows ref 0 (rev log) !! i = None).
      { apply lookup_ge_None. apply lookup_ge_None in He.
        rewrite <- (length_map innerHTML), rich_rows_markup, length_map. exact He. }
      rewrite Hnone. exists log. cbn [ret snd].
      split; [exact Hload|]. exists ref. rewrite <- Hrows. split; [reflexivity|exact Href].
  - exists log. destruct log as [|e log].
    + rewrite (export_empty_run p Hload). cbn [snd]. split.
      * rewrite <- Hload. apply load_only_storage. reflexivity.
      * exists ref. split; assumption.
    + rewrite (export_log_run (e :: log) p ltac:(discriminate) Hload). cbn [snd].
      split.
      * rewrite <- Hload. apply load_only_storage. reflexivity.
      * exists ref. split; assumption.
  - destruct answer.
    + exists [].
      change (Rich.clearAllBtn_click true p)
        with (Rich.renderPunchList
                (set_localStorage
                   (insert (utf16 "punchData") (JSON_stringify (log_value [])))
                   (add_output
                      (Confirm (utf16 "确定要清空全部打卡数据吗？此操作不可恢复！")) p))).
      apply render_shows, load_saved_log.
    + exists log. split.
      * rewrite <- Hload. apply load_only_storage. reflexivity.
      * exists ref. split; assumption.
  - exists log. apply render_shows.
    rewrite <- Hload. apply load_only_storage. reflexivity.
Qed.

(** On every reachable page the stored value is a log and the list shows
    it. *)
Lemma reachable_shows p : reachable p -> exists log, shows log p.
Proof.
  induction 1 as [|a p _ [log Hlog]].
  - exists []. apply render_shows. reflexivity.
  - exact (step_shows a log p Hlog).
Qed.

(** A page the simpler script reaches looks like one the richer script
    reaches by the same actions, delete and clear-all left out. *)
Lemma simple_reachable_simulated ps :
  simple_reachable ps -> exists pr, reachable pr /\ view ps = view pr.
Proof.
  induction 1 as [|a ps _ (pr & Hpr & Hv)].
  - eexists. split; [apply reachable_first|].
    apply agree_render. reflexivity.
  - destruct a as [value dateStr|i| |answer|]; cbn [simple_step].
    + exists (step (DoSubmit value dateStr) pr).
      split; [apply reachable_step; exact Hpr|]. cbn [step].
      apply agree_submit.
      exact (proj2 (agree_set_input value ps pr Hv)).
    + exists pr. split; assumption.
    + exists (step DoExport pr).
      split; [apply reachable_step; exact Hpr|]. cbn [step].
      apply agree_export. exact Hv.
    + exists pr. split; assumption.
    + exists (step DoReload pr).
      split; [apply reachable_step; exact Hpr|]. cbn [step].
      apply agree_render. unfold view in *. unfold reopen. unfold_page.
      congruence.
Qed.

Lemma simple_reachable_stores_log ps :
  simple_reachable ps -> exists log, load ps = Normal (log_value log).
Proof.
  intros Hps.
  destruct (simple_reachable_simulated ps Hps) as (pr & Hpr & Hv).
  destruct (reachable_shows pr Hpr) as (log & Hload & _).
  exists log. rewrite <- Hload. apply load_only_storage.
  unfold view in Hv. congruence.
Qed.

End Reachable.

(** ** What the listeners do on any page *)

Section AnyPage.
Context `{NumberOps}.

Lemma set_punchList_app_nil p : set_punchList (fun rows => rows ++ []) p = p.
Proof. destruct p. unfold_page. rewrite app_nil_r. reflexivity. Qed.

Lemma forEach_plain items : forall idx p,
  forEach items idx
    (fun item _ =>
       bind (lift (row_markup item))
            (fun markup => punchList_appendChild {| innerHTML := markup; delBtn := None |}))
    p
  = (snd (rows_markup items),
     set_punchList (fun rows => rows ++ List.map plain_li (fst (rows_markup items))) p).
Proof.
  induction items as [|item items IH]; intros idx p.
  - cbn [forEach rows_markup fst snd List.map]. unfold ret.
    rewrite set_punchList_app_nil. reflexivity.
  - cbn [forEach rows_markup]. unfold bind at 1. unfold bind at 1.
    unfold lift at 1.
    destruct (row_markup item) as [markup|e].
    + cbn [punchList_appendChild modify fst snd List.map]. unfold modify.
      rewrite IH. destruct p. unfold_page. rewrite <- app_assoc. reflexivity.
    + cbn [fst snd List.map]. rewrite set_punchList_app_nil. reflexivity.
Qed.

Lemma forEach_buttons ref items : forall idx p,
  forEach items idx
    (fun item idx =>
       bind (lift (row_markup item))
            (fun markup =>
               punchList_appendChild
                 {| innerHTML := markup;
                    delBtn := Some {| textContent := utf16 "删除";
                                      style_marginLeft := utf16 "10px";
                                      onclick := {| captured_data := ref;
                                                    captured_idx := idx |} |} |}))
    p
  = (snd (rows_markup items),
     set_punchList (fun rows => rows ++ button_lis ref idx (fst (rows_markup items))) p).
Proof.
  induction items as [|item items IH]; intros idx p.
  - cbn [forEach rows_markup fst snd button_lis]. unfold ret.
    rewrite set_punchList_app_nil. reflexivity.
  - cbn [forEach rows_markup]. unfold bind at 1. unfold bind at 1.
    unfold lift at 1.
    destruct (row_markup item) as [markup|e].
    + cbn [punchList_appendChild modify fst snd button_lis]. unfold modify.
      rewrite IH. destruct p. unfold_page. rewrite <- app_assoc. reflexivity.
    + cbn [fst snd button_lis]. rewrite set_punchList_app_nil. reflexivity.
Qed.

(** [renderPunchList] of the simpler script, on any page. *)
Lemma Simple_render_any p :
  Simple.renderPunchList p
  = match load p with
    | Throw e => (Throw e, p)
    | Normal data =>
      match array_receiver data with
      | Throw e => (Throw e, set_punchList (fun _ => []) p)
      | Normal elements =>
        (snd (rows_markup (rev elements)),
         set_punchList (fun _ => List.map plain_li (fst (rows_markup (rev elements)))) p)
      end
    end.
Proof.
  unfold Simple.renderPunchList.
  unfold bind at 1. rewrite getPunchData_same, getPunchData_run.
  destruct (load p) as [data|e]; [|reflexivity].
  unfold bind at 1. cbn [punchList_clear modify].
  unfold bind at 1. unfold lift at 1.
  destruct (array_receiver data) as [elements|e]; [|reflexivity].
  rewrite forEach_plain. destruct p; reflexivity.
Qed.

(** [renderPunchList] of the richer script, on any page. *)
Lemma Rich_render_any p :
  Rich.renderPunchList p
  = match load p with
    | Throw e => (Throw e, p)
    | Normal data =>
      match array_receiver data with
      | Throw e => (Throw e, set_punchList (fun _ => []) p)
      | Normal elements =>
        (snd (rows_markup (rev elements)),
         set_punchList
           (fun _ => button_lis (List.length (arrays p)) 0 (fst (rows_markup (rev elements))))
           (set_arrays (fun heap => heap ++ [elements]) p))
      end
    end.
Proof.
  unfold Rich.renderPunchList.
  unfold bind at 1. rewrite getPunchData_run.
  destruct (load p) as [data|e]; [|reflexivity].
  unfold bind at 1. cbn [punchList_clear modify].
  unfold bind at 1. unfold lift at 1.
  destruct (array_receiver data) as [elements|e]; [|reflexivity].
  unfold bind at 1. cbn [new_array bind read modify ret].
  rewrite forEach_buttons. destruct p; reflexivity.
Qed.

Lemma button_lis_markup ref markups : forall idx,
  List.map innerHTML (button_lis ref idx markups) = markups.
Proof.
  induction markups as [|m markups IH]; intros idx; [reflexivity|].
  cbn [button_lis List.map innerHTML]. rewrite IH. reflexivity.
Qed.

Lemma plain_li_markup markups : List.map innerHTML (List.map plain_li markups) = markups.
Proof.
  induction markups as [|m markups IH]; [reflexivity|].
  cbn [List.map plain_li innerHTML]. rewrite IH. reflexivity.
Qed.

(** The submit listeners, on any page. *)
Lemma Rich_submit_any dateStr p :
  Rich.punchForm_submit dateStr p
  = match trim (punchInput_value p) with
    | [] => (Normal tt, p)
    | text =>
      match stored_array p with
      | Throw e => (Throw e, p)
      | Normal elements =>
        Rich.renderPunchList
          (set_punchInput_value []
             (set_localStorage
                (insert (utf16 "punchData")
                        (JSON_stringify (JArr (elements ++ [entry_object text dateStr]))))
                p))
      end
    end.
Proof.
  unfold Rich.punchForm_submit, stored_array.
  unfold bind at 1. unfold read at 1.
  destruct (trim (punchInput_value p)) as [|c text']; [reflexivity|].
  cbn [truthy negb].
  unfold bind at 1. rewrite getPunchData_run.
  destruct (load p) as [data|e]; [|reflexivity].
  cbn [completion_bind]. unfold bind at 1. unfold lift at 1.
  destruct (array_receiver data) as [elements|e]; reflexivity.
Qed.

Lemma Simple_submit_any dateStr p :
  Simple.punchForm_submit dateStr p
  = match trim (punchInput_value p) with
    | [] => (Normal tt, p)
    | text =>
      match stored_array p with
      | Throw e => (Throw e, p)
      | Normal elements =>
        Simple.renderPunchList
          (set_punchInput_value []
             (set_localStorage
                (insert (utf16 "punchData")
                        (JSON_stringify (JArr (elements ++ [entry_object text dateStr]))))
                p))
      end
    end.
Proof.
  rewrite punchForm_submit_same. unfold stored_array.
  unfold bind at 1. unfold read at 1.
  destruct (trim (punchInput_value p)) as [|c text']; [reflexivity|].
  cbn [truthy negb].
  unfold bind at 1. rewrite getPunchData_run.
  destruct (load p) as [data|e]; [|reflexivity].
  cbn [completion_bind]. unfold bind at 1. unfold lift at 1.
  destruct (array_receiver data) as [elements|e]; reflexivity.
Qed.

(** The export listener, on any page. *)
Lemma export_any p :
  Rich.exportBtn_click p
  = match load p with
    | Throw e => (Throw e, p)
    | Normal data =>
      match length_is_zero data with
      | Throw e => (Throw e, p)
      | Normal true => (Normal tt, add_output (Alert (utf16 "暂无打卡数据可导出！")) p)
      | Normal false =>
        match completion_bind (array_receiver data)
                (fun elements => export_forEach elements 0 []) with
        | Throw e => (Throw e, p)
        | Normal content =>
          (Normal tt,
           add_output
             (Download (utf16 "punch.txt")
                {| blob_parts := [content]; blob_type := utf16 "text/plain" |})
             (set_blob_urls (fun store => store ++ [None]) p))
        end
      end
    end.
Proof.
  unfold Rich.exportBtn_click.
  unfold bind at 1. rewrite getPunchData_run.
  destruct (load p) as [data|e]; [|reflexivity].
  unfold bind at 1. unfold lift at 1.
  destruct (length_is_zero data) as [[|]|e]; [reflexivity| |reflexivity].
  unfold bind at 1. unfold lift at 1.
  destruct (array_receiver data) as [elements|e]; [|reflexivity].
  cbn [completion_bind].
  unfold bind at 1. unfold lift at 1.
  destruct (export_forEach elements 0 []) as [content|e]; [|reflexivity].
  unfold URL_createObjectURL, body_appendChild, anchor_click, body_removeChild,
    URL_revokeObjectURL, bind.
  unfold_page. cbn [href download]. cbn beta.
  rewrite list_lookup_middle by reflexivity.
  unfold_page.
  rewrite remove_appended.
  rewrite insert_app_r_alt by lia.
  rewrite Nat.sub_diag. cbn [insert list_insert].
  destruct p; reflexivity.
Qed.

End AnyPage.

(** ** [trim] *)

Lemma trimStart_suffix s :
  exists spaces, s = spaces ++ trimStart s /\ forallb is_trim_space spaces = true.
Proof.
  induction s as [|c s (spaces & Hs & Hspaces)].
  - exists []. split; reflexivity.
  - cbn [trimStart]. destruct (is_trim_space c) eqn:Hc.
    + exists (c :: spaces). split.
      * cbn [app]. rewrite <- Hs. reflexivity.
      * cbn [forallb]. rewrite Hc, Hspaces. reflexivity.
    + exists []. split; reflexivity.
Qed.

Lemma trimStart_head s c s' :
  trimStart s = c :: s' -> is_trim_space c = false.
Proof.
  induction s as [|d s IH]; [discriminate|].
  cbn [trimStart]. destruct (is_trim_space d) eqn:Hd; [exact IH|].
  intros [= <- <-]. exact Hd.
Qed.

Lemma trimStart_fixed c s :
  is_trim_space c = false -> trimStart (c :: s) = c :: s.
Proof. intros Hc. cbn [trimStart]. rewrite Hc. reflexivity. Qed.

Lemma trimStart_spaces spaces s :
  forallb is_trim_space spaces = true -> trimStart (spaces ++ s) = trimStart s.
Proof.
  induction spaces as [|c spaces IH]; [reflexivity|].
  cbn [forallb app trimStart]. intros Hcs.
  apply andb_true_iff in Hcs as [Hc Hspaces]. rewrite Hc. apply IH, Hspaces.
Qed.

Lemma trimStart_all_spaces s :
  trimStart s = [] <-> forallb is_trim_space s = true.
Proof.
  split.
  - intros Hs. destruct (trimStart_suffix s) as (spaces & Heq & Hspaces).
    rewrite Hs, app_nil_r in Heq. subst s. exact Hspaces.
  - intros Hs. rewrite <- (app_nil_r s). rewrite trimStart_spaces by exact Hs.
    reflexivity.
Qed.

(** A trimmed string starts and ends with a code unit that is not white
    space, unless it is empty. *)
Lemma trim_ends s :
  trim s = []
  \/ exists first middle final,
       is_trim_space first = false /\ is_trim_space final = false
       /\ (trim s = [first] /\ first = final
           \/ trim s = first :: middle ++ [final]).
Proof.
  unfold trim, trimEnd.
  destruct (trimStart s) as [|first t] eqn:Hstart; [left; reflexivity|].
  pose proof (trimStart_head s first t Hstart) as Hfirst.
  destruct (trimStart (rev (first :: t))) as [|final u] eqn:Hend.
  { left. reflexivity. }
  right.
  pose proof (trimStart_head _ final u Hend) as Hfinal.
  destruct (trimStart_suffix (rev (first :: t))) as (spaces & Heq & _).
  rewrite Hend in Heq.
  apply (f_equal (@rev N)) in Heq. rewrite rev_involutive in Heq.
  rewrite rev_app_distr in Heq. cbn [rev] in Heq |- *.
  destruct (rev u) as [|x ru] eqn:Hru.
  - cbn [app] in Heq |- *. injection Heq as Hf _. subst final.
    exists first, [], first. repeat split; try assumption. left. split; reflexivity.
  - cbn [app] in Heq |- *. injection Heq as Hf _. subst x.
    exists first, ru, final. repeat split; try assumption. right. reflexivity.
Qed.

(** Trimming twice is trimming once. *)
Lemma trim_idempotent s : trim (trim s) = trim s.
Proof.
  destruct (trim_ends s) as [Hnil|(first & middle & final & Hfirst & Hfinal & Hshape)].
  - rewrite Hnil. reflexivity.
  - destruct Hshape as [[Hone _]|Hmore].
    + rewrite Hone. unfold trim, trimEnd.
      rewrite trimStart_fixed by assumption. cbn [rev app].
      rewrite trimStart_fixed by assumption. reflexivity.
    + rewrite Hmore. unfold trim, trimEnd.
      rewrite trimStart_fixed by assumption.
      change (first :: middle ++ [final]) with ((first :: middle) ++ [final]).
      rewrite rev_app_distr. cbn [rev app].
      rewrite trimStart_fixed by assumption.
      change (final :: rev middle ++ [first]) with ([final] ++ rev (first :: middle)).
      rewrite rev_app_distr, rev_involutive. reflexivity.
Qed.

(** The trimmed string is empty exactly when the string is white space
    throughout. *)
Lemma trim_empty s : trim s = [] <-> forallb is_trim_space s = true.
Proof.
  rewrite <- trimStart_all_spaces. unfold trim, trimEnd. split.
  - intros Hs. apply (f_equal (@rev N)) in Hs. rewrite rev_involutive in Hs.
    cbn [rev] in Hs.
    destruct (trimStart s) as [|c t] eqn:Hstart; [reflexivity|].
    pose proof (trimStart_head s c t Hstart) as Hc.
    apply trimStart_all_spaces in Hs.
    rewrite forallb_forall in Hs.
    specialize (Hs c). rewrite Hs in Hc; [discriminate|].
    apply in_rev. rewrite rev_involutive. left. reflexivity.
  - intros ->. reflexivity.
Qed.

Lemma trimmed_trim s : trim s <> [] -> trimmed (trim s).
Proof. intros Hs. split; [exact Hs|apply trim_idempotent]. Qed.

(** ** The scripts implement the list machine *)

Section Refinement.
Context `{NumberOps}.

Lemma load_log_array log p :
  load p = Normal (log_value log) ->
  stored_array p = Normal (List.map entry_value log).
Proof. intros Hload. unfold stored_array. rewrite Hload. reflexivity. Qed.

Lemma submit_refines value dateStr log p :
  shows log p ->
  shows (next_log (DoSubmit value dateStr) log) (step (DoSubmit value dateStr) p).
Proof.
  intros (Hload & ref & Hrows & Href). cbn [step next_log].
  set (q := set_punchInput_value value p).
  assert (Hq : load q = Normal (log_value log)).
  { rewrite <- Hload. apply load_only_storage. reflexivity. }
  rewrite Rich_submit_any.
  change (punchInput_value q) with value.
  destruct (trim value) as [|c text'].
  - cbn [snd]. split; [exact Hq|]. exists ref. split; assumption.
  - rewrite (load_log_array log q Hq).
    change (entry_object (c :: text') dateStr)
      with (entry_value {| text := c :: text'; date := dateStr |}).
    rewrite log_value_snoc.
    apply render_shows. apply load_submitted.
Qed.

Lemma delete_refines i log p :
  shows log p ->
  shows (next_log (DoDelete i) log) (step (DoDelete i) p).
Proof.
  intros (Hload & ref & Hrows & Href). cbn [step next_log].
  unfold Rich.click_delBtn, bind, read. rewrite Hrows.
  destruct (Nat.ltb_spec i (List.length log)) as [Hi|Hi].
  - destruct (rev log !! i) as [e|] eqn:He.
    2:{ apply lookup_ge_None in He. rewrite length_rev in He. lia. }
    rewrite (rich_rows_lookup _ _ 0 i e He).
    cbn [rich_row delBtn onclick Nat.add].
    unfold Rich.delBtn_onclick. unfold bind at 1. unfold read_array, read.
    cbn [captured_data captured_idx]. rewrite Href.
    cbn [default from_option]. unfold id. rewrite length_map.
    replace (Z.of_nat (List.length log) - 1 - Z.of_nat i)%Z
      with (Z.of_nat (List.length log - 1 - i)) by lia.
    rewrite splice_one by (rewrite length_map; lia).
    rewrite without_value.
    change (JArr (List.map entry_value (without (List.length log - 1 - i) log)))
      with (log_value (without (List.length log - 1 - i) log)).
    unfold bind at 1. unfold write_array, modify at 1.
    unfold bind at 1. rewrite savePunchData_run.
    apply render_shows.
    rewrite load_lookup. unfold_page.
    rewrite lookup_insert_eq, JSON_parse_stringify_log. reflexivity.
  - assert (Hnone : rich_rows ref 0 (rev log) !! i = None).
    { apply lookup_ge_None.
      rewrite <- (length_map innerHTML), rich_rows_markup, length_map, length_rev.
      exact Hi. }
    rewrite Hnone. cbn [ret snd].
    split; [exact Hload|]. exists ref. rewrite <- Hrows. split; [reflexivity|exact Href].
Qed.

Lemma export_keeps_storage p :
  localStorage (snd (Rich.exportBtn_click p)) = localStorage p
  /\ punchList (snd (Rich.exportBtn_click p)) = punchList p
  /\ arrays (snd (Rich.exportBtn_click p)) = arrays p
  /\ punchInput_value (snd (Rich.exportBtn_click p)) = punchInput_value p
  /\ body (snd (Rich.exportBtn_click p)) = body p.
Proof.
  rewrite export_any.
  destruct (load p) as [data|e]; [|repeat split].
  destruct (length_is_zero data) as [[|]|e]; [repeat split| |repeat split].
  destruct (completion_bind _ _) as [content|e]; repeat split.
Qed.

Lemma step_refines a log p :
  shows log p -> shows (next_log a log) (step a p).
Proof.
  intros Hshows.
  destruct a as [value dateStr|i| |answer|].
  - apply submit_refines, Hshows.
  - apply delete_refines, Hshows.
  - destruct Hshows as (Hload & ref & Hrows & Href). cbn [step next_log].
    destruct (export_keeps_storage p) as (Hs & Hl & Ha & _).
    split.
    + rewrite <- Hload. apply load_only_storage. exact Hs.
    + exists ref. rewrite Hl, Ha. split; assumption.
  - destruct Hshows as (Hload & ref & Hrows & Href). cbn [step next_log].
    destruct answer.
    + change (Rich.clearAllBtn_click true p)
        with (Rich.renderPunchList
                (set_localStorage
                   (insert (utf16 "punchData") (JSON_stringify (log_value [])))
                   (add_output
                      (Confirm (utf16 "确定要清空全部打卡数据吗？此操作不可恢复！")) p))).
      apply render_shows, load_saved_log.
    + split.
      * rewrite <- Hload. apply load_only_storage. reflexivity.
      * exists ref. split; assumption.
  - destruct Hshows as (Hload & _). cbn [step next_log].
    apply render_shows. rewrite <- Hload. apply load_only_storage. reflexivity.
Qed.

Lemma run_refines actions : forall log p,
  shows log p -> shows (log_after actions log) (run actions p).
Proof.
  induction actions as [|a actions IH]; intros log p Hshows; [exact Hshows|].
  cbn [run log_after fold_left]. apply IH, step_refines, Hshows.
Qed.

Lemma first_visit_shows :
  shows [] (snd (Rich.renderPunchList (page_with None []))).
Proof. apply render_shows. reflexivity. Qed.

(** The simpler script. *)
Lemma simple_render_shows log p :
  load p = Normal (log_value log) ->
  simple_shows log (snd (Simple.renderPunchList p)).
Proof.
  intros Hload. rewrite (Simple_render_log log p Hload). cbn [snd].
  split; [|reflexivity].
  rewrite <- Hload. apply load_only_storage. reflexivity.
Qed.

Lemma simple_step_refines a log p :
  simple_shows log p -> simple_shows (simple_next_log a log) (simple_step a p).
Proof.
  intros (Hload & Hrows).
  destruct a as [value dateStr|i| |answer|]; cbn [simple_step simple_next_log next_log].
  - set (q := set_punchInput_value value p).
    assert (Hq : load q = Normal (log_value log)).
    { rewrite <- Hload. apply load_only_storage. reflexivity. }
    rewrite Simple_submit_any.
    change (punchInput_value q) with value.
    destruct (trim value) as [|c text'].
    + cbn [snd]. split; [exact Hq|exact Hrows].
    + rewrite (load_log_array log q Hq).
      change (entry_object (c :: text') dateStr)
        with (entry_value {| text := c :: text'; date := dateStr |}).
      rewrite log_value_snoc.
      apply simple_render_shows. apply load_submitted.
  - split; assumption.
  - rewrite exportBtn_click_same.
    destruct (export_keeps_storage p) as (Hs & Hl & _).
    split.
    + rewrite <- Hload. apply load_only_storage. exact Hs.
    + rewrite Hl. exact Hrows.
  - split; assumption.
  - apply simple_render_shows. rewrite <- Hload. apply load_only_storage. reflexivity.
Qed.

Lemma simple_run_refines actions : forall log p,
  simple_shows log p ->
  simple_shows (simple_log_after actions log) (simple_run actions p).
Proof.
  induction actions as [|a actions IH]; intros log p Hshows; [exact Hshows|].
  cbn [simple_run simple_log_after fold_left]. apply IH, simple_step_refines, Hshows.
Qed.

End Refinement.

(** ** Sessions *)

(** X1.  The richer script implements the list machine.  After any
    session that starts at the first visit (nothing stored), the stored
    value is the log the list operations give — a submit with text
    appends one entry, deleting row i removes the entry at index
    n - 1 - i, a confirmed clear-all empties the log, and a blank submit,
    an export, a declined clear-all, a reload and a click where there is
    no row leave it alone — and the rows on display are those of that
    log, newest first, each button bound to its row. *)
Theorem rich_session_refines `{NumberOps} (actions : list action) :
  shows (log_after actions [])
        (run actions (snd (Rich.renderPunchList (page_with None [])))).
Proof. apply run_refines, first_visit_shows. Qed.

(** X2.  The simpler script implements the list machine without delete
    and clear-all: after any session from the first visit the stored log
    is the entries of the submits with text, in order, and the rows on
    display are those of that log, newest first. *)
Theorem simple_session_refines `{NumberOps} (actions : list action) :
  simple_shows (simple_log_after actions [])
               (simple_run actions (snd (Simple.renderPunchList (page_with None [])))).
Proof. apply simple_run_refines, simple_render_shows. reflexivity. Qed.

Section Trimmed.
Context `{NumberOps}.

Lemma next_log_trimmed a log :
  Forall (fun e => trimmed (text e)) log ->
  Forall (fun e => trimmed (text e)) (next_log a log).
Proof.
  intros Hlog. destruct a as [value dateStr|i| |[|]|]; cbn [next_log]; try assumption.
  - destruct (trim value) as [|c text'] eqn:Htrim; [assumption|].
    apply Forall_app. split; [assumption|].
    constructor; [|constructor].
    cbn [text]. rewrite <- Htrim. apply trimmed_trim. rewrite Htrim. discriminate.
  - destruct (Nat.ltb i (List.length log)); [|assumption].
    unfold without. apply Forall_app. split.
    + apply Forall_take. assumption.
    + apply Forall_drop. assumption.
  - constructor.
Qed.

Lemma log_after_trimmed actions : forall log,
  Forall (fun e => trimmed (text e)) log ->
  Forall (fun e => trimmed (text e)) (log_after actions log).
Proof.
  induction actions as [|a actions IH]; intros log Hlog; [exact Hlog|].
  cbn [log_after fold_left]. apply IH, next_log_trimmed, Hlog.
Qed.

Lemma simple_log_after_trimmed actions : forall log,
  Forall (fun e => trimmed (text e)) log ->
  Forall (fun e => trimmed (text e)) (simple_log_after actions log).
Proof.
  induction actions as [|a actions IH]; intros log Hlog; [exact Hlog|].
  cbn [simple_log_after fold_left]. apply IH.
  destruct a; cbn [simple_next_log]; try assumption.
  apply next_log_trimmed, Hlog.
Qed.

End Trimmed.

(** X3.  No blank text and no surrounding white space ever reaches the
    storage.  After any session from the first visit, in either script,
    the stored value is a log all of whose entries have a text that is
    not empty and is its own trim. *)
Theorem stored_text_is_trimmed `{NumberOps} (actions : list action) :
  (exists log,
      load (run actions (snd (Rich.renderPunchList (page_with None []))))
      = Normal (log_value log)
      /\ Forall (fun e => trimmed (text e)) log)
  /\ (exists log,
         load (simple_run actions (snd (Simple.renderPunchList (page_with None []))))
         = Normal (log_value log)
         /\ Forall (fun e => trimmed (text e)) log).
Proof.
  split.
  - exists (log_after actions []). split.
    + apply (run_refines actions [] _ first_visit_shows).
    + apply log_after_trimmed. constructor.
  - exists (simple_log_after actions []). split.
    + apply (simple_run_refines actions []), simple_render_shows. reflexivity.
    + apply simple_log_after_trimmed. constructor.
Qed.

(** ** Rendering on any page *)

Section RenderAny.
Context `{NumberOps}.

Lemma array_receiver_not_array data :
  (forall elements, data <> JArr elements) -> array_receiver data = Throw TypeError.
Proof. intros Hdata. destruct data; try reflexivity. destruct (Hdata elements eq_refl). Qed.

Lemma rows_markup_entries log rest :
  rows_markup (List.map entry_value log ++ rest)
  = (List.map entry_markup log ++ fst (rows_markup rest), snd (rows_markup rest)).
Proof.
  induction log as [|e log IH].
  { cbn [List.map app]. destruct (rows_markup rest). reflexivity. }
  cbn [List.map app rows_markup]. rewrite row_markup_entry, IH. reflexivity.
Qed.

Lemma plain_li_entries log :
  List.map plain_li (List.map entry_markup log) = List.map simple_row log.
Proof. rewrite map_map. reflexivity. Qed.

Lemma button_lis_entries ref log : forall idx,
  button_lis ref idx (List.map entry_markup log) = rich_rows ref idx log.
Proof.
  induction log as [|e log IH]; intros idx; [reflexivity|].
  cbn [List.map button_lis rich_rows]. rewrite IH. reflexivity.
Qed.

Lemma Simple_render_storage p :
  localStorage (snd (Simple.renderPunchList p)) = localStorage p.
Proof.
  rewrite Simple_render_any.
  destruct (load p) as [data|e]; [|reflexivity].
  destruct (array_receiver data); reflexivity.
Qed.

Lemma Rich_render_storage p :
  localStorage (snd (Rich.renderPunchList p)) = localStorage p.
Proof.
  rewrite Rich_render_any.
  destruct (load p) as [data|e]; [|reflexivity].
  destruct (array_receiver data); reflexivity.
Qed.

Lemma render_frame p :
  let simple := snd (Simple.renderPunchList p) in
  let rich := snd (Rich.renderPunchList p) in
  (localStorage simple = localStorage p
   /\ punchInput_value simple = punchInput_value p
   /\ outputs simple = outputs p
   /\ body simple = body p
   /\ blob_urls simple = blob_urls p)
  /\ (localStorage rich = localStorage p
      /\ punchInput_value rich = punchInput_value p
      /\ outputs rich = outputs p
      /\ body rich = body p
      /\ blob_urls rich = blob_urls p).
Proof.
  cbv zeta. rewrite Simple_render_any, Rich_render_any.
  destruct (load p) as [data|e]; [|repeat split].
  destruct (array_receiver data); repeat split.
Qed.

End RenderAny.

(** X4.  [renderPunchList] writes to the list and to nothing else,
    whatever the storage holds and whether or not it throws: the stored
    values, the input field, the alerts and downloads, the document body
    and the object URLs are as they were, in both scripts. *)
Theorem render_changes_only_the_list `{NumberOps} (p : page) :
  let simple := snd (Simple.renderPunchList p) in
  let rich := snd (Rich.renderPunchList p) in
  (localStorage simple = localStorage p
   /\ punchInput_value simple = punchInput_value p
   /\ outputs simple = outputs p
   /\ body simple = body p
   /\ blob_urls simple = blob_urls p)
  /\ (localStorage rich = localStorage p
      /\ punchInput_value rich = punchInput_value p
      /\ outputs rich = outputs p
      /\ body rich = body p
      /\ blob_urls rich = blob_urls p).
Proof. exact (render_frame p). Qed.

(** X5.  How [renderPunchList] fails.  When [getPunchData] throws (the
    stored text is not JSON), the error comes before the list is emptied:
    the rows shown before stay on display.  When [getPunchData] returns
    something that is not an array, the list has been emptied by the time
    [reverse] is found missing: a TypeError, and an empty list.  Both
    scripts. *)
Theorem render_failure `{NumberOps} (p : page) :
  (forall e, load p = Throw e ->
     Simple.renderPunchList p = (Throw e, p)
     /\ Rich.renderPunchList p = (Throw e, p))
  /\ (forall data, load p = Normal data ->
        (forall elements, data <> JArr elements) ->
        Simple.renderPunchList p = (Throw TypeError, set_punchList (fun _ => []) p)
        /\ Rich.renderPunchList p = (Throw TypeError, set_punchList (fun _ => []) p)).
Proof.
  rewrite Simple_render_any, Rich_render_any. split.
  - intros e ->. split; reflexivity.
  - intros data -> Hdata. rewrite (array_receiver_not_array data Hdata).
    split; reflexivity.
Qed.

(** X6.  A null among the stored elements stops the rendering half way.
    The loop runs from the newest element to the oldest; the rows of the
    entries newer than the null are on display when reading [null.text]
    throws the TypeError, and the older ones are never shown.  Both
    scripts. *)
Theorem render_stops_at_null `{NumberOps} (older : list jsval)
    (newer : list Entry) (p : page) :
  load p = Normal (JArr (older ++ JNull :: List.map entry_value newer)) ->
  Simple.renderPunchList p
  = (Throw TypeError, set_punchList (fun _ => List.map simple_row (rev newer)) p)
  /\ fst (Rich.renderPunchList p) = Throw TypeError
  /\ List.map innerHTML (punchList (snd (Rich.renderPunchList p)))
     = List.map entry_markup (rev newer).
Proof.
  intros Hload. rewrite Simple_render_any, Rich_render_any, Hload.
  cbn [array_receiver].
  assert (Hrev : rev (older ++ JNull :: List.map entry_value newer)
                 = List.map entry_value (rev newer) ++ JNull :: rev older).
  { rewrite rev_app_distr. cbn [rev]. rewrite <- app_assoc, map_rev. reflexivity. }
  rewrite Hrev, rows_markup_entries.
  cbn [rows_markup row_markup get_field completion_bind fst snd].
  rewrite app_nil_r, plain_li_entries.
  split; [reflexivity|]. split; [reflexivity|].
  unfold_page. rewrite button_lis_markup. reflexivity.
Qed.

(** ** Submit on any page *)

Section SubmitAny.
Context `{NumberOps}.

Lemma stored_array_only_storage p q :
  localStorage p = localStorage q -> stored_array p = stored_array q.
Proof. intros Hs. unfold stored_array. rewrite (load_only_storage p q Hs). reflexivity. Qed.

End SubmitAny.

(** X7.  Submit with text when the storage cannot take it.  If the input
    is not blank and [getPunchData] throws, or returns something that is
    no array (so that [push] is missing), the listener throws that error
    with the page exactly as it was: nothing is stored, nothing is
    rendered, and the text is still in the field.  If it returns an
    array, whatever its elements, the array with the new entry at its end
    is stored and the field is emptied.  Both scripts. *)
Theorem submit_outcomes `{NumberOps} (dateStr : jsstring) (p : page) :
  trim (punchInput_value p) <> [] ->
  (forall e, stored_array p = Throw e ->
     Simple.punchForm_submit dateStr p = (Throw e, p)
     /\ Rich.punchForm_submit dateStr p = (Throw e, p))
  /\ (forall elements, stored_array p = Normal elements ->
        let saved :=
          JSON_stringify
            (JArr (elements ++ [entry_object (trim (punchInput_value p)) dateStr])) in
        let simple := snd (Simple.punchForm_submit dateStr p) in
        let rich := snd (Rich.punchForm_submit dateStr p) in
        localStorage simple = <[utf16 "punchData" := saved]> (localStorage p)
        /\ punchInput_value simple = []
        /\ localStorage rich = <[utf16 "punchData" := saved]> (localStorage p)
        /\ punchInput_value rich = []).
Proof.
  intros Htext. rewrite Simple_submit_any, Rich_submit_any.
  destruct (trim (punchInput_value p)) as [|c text']; [congruence|].
  split.
  - intros e ->. split; reflexivity.
  - intros elements ->. cbv zeta.
    rewrite Simple_render_storage, Rich_render_storage.
    destruct (render_frame
                (set_punchInput_value []
                   (set_localStorage
                      (insert (utf16 "punchData")
                         (JSON_stringify
                            (JArr (elements ++ [entry_object (c :: text') dateStr]))))
                      p)))
      as ((_ & Hs & _) & (_ & Hr & _)).
    rewrite Hs, Hr. repeat split.
Qed.

(** X8.  White space around the typed value changes nothing that is
    stored.  On any page, submitting a value and submitting its trim end
    the same way and leave the same storage.  Both scripts. *)
Theorem submit_ignores_surrounding_space `{NumberOps} (value dateStr : jsstring)
    (p : page) :
  let typed := set_punchInput_value value p in
  let clean := set_punchInput_value (trim value) p in
  (fst (Simple.punchForm_submit dateStr typed) = fst (Simple.punchForm_submit dateStr clean)
   /\ localStorage (snd (Simple.punchForm_submit dateStr typed))
      = localStorage (snd (Simple.punchForm_submit dateStr clean)))
  /\ (fst (Rich.punchForm_submit dateStr typed) = fst (Rich.punchForm_submit dateStr clean)
      /\ localStorage (snd (Rich.punchForm_submit dateStr typed))
         = localStorage (snd (Rich.punchForm_submit dateStr clean))).
Proof.
  cbv zeta. rewrite !Simple_submit_any, !Rich_submit_any.
  change (punchInput_value (set_punchInput_value value p)) with value.
  change (punchInput_value (set_punchInput_value (trim value) p)) with (trim value).
  rewrite trim_idempotent.
  destruct (trim value) as [|c text']; [repeat split|].
  rewrite (stored_array_only_storage (set_punchInput_value value p) p eq_refl).
  rewrite (stored_array_only_storage (set_punchInput_value (c :: text') p) p eq_refl).
  destruct (stored_array p) as [elements|e]; repeat split.
Qed.

(** ** Export on any page *)

(** X9.  The export listener is all or nothing and leaves nothing behind.
    On any page, in both scripts: if it throws, the page is exactly as it
    was (no alert, no file); if it completes, it has shown one thing, and
    that thing is either the alert [暂无打卡数据可导出！], with no object URL
    made, or one file named [punch.txt] of type [text/plain], whose object
    URL is revoked.  In every case the storage, the input field and the
    list are untouched and the anchor is out of the document again. *)
Theorem export_all_or_nothing `{NumberOps} (p : page) :
  let run := Rich.exportBtn_click p in
  Simple.exportBtn_click p = run
  /\ (forall e, fst run = Throw e -> snd run = p)
  /\ (fst run = Normal tt ->
      exists o,
        outputs (snd run) = outputs p ++ [o]
        /\ (o = Alert (utf16 "暂无打卡数据可导出！")
              /\ snd run = add_output o p
            \/ exists content,
                 o = Download (utf16 "punch.txt")
                       {| blob_parts := [content]; blob_type := utf16 "text/plain" |}
                 /\ snd run
                    = add_output o (set_blob_urls (fun store => store ++ [None]) p)))
  /\ localStorage (snd run) = localStorage p
  /\ punchInput_value (snd run) = punchInput_value p
  /\ punchList (snd run) = punchList p
  /\ body (snd run) = body p
  /\ (blob_urls (snd run) = blob_urls p \/ blob_urls (snd run) = blob_urls p ++ [None]).
Proof.
  cbv zeta. split; [rewrite exportBtn_click_same; reflexivity|].
  rewrite export_any.
  destruct (load p) as [data|e0].
  2:{ repeat split; try discriminate; try (left; reflexivity). }
  destruct (length_is_zero data) as [[|]|e0].
  - split; [discriminate|]. split.
    { intros _. eexists. split; [reflexivity|]. left. split; reflexivity. }
    repeat split; try (left; reflexivity).
  - destruct (completion_bind _ _) as [content|e0].
    + split; [discriminate|]. split.
      { intros _. eexists. split; [reflexivity|]. right. exists content.
        split; reflexivity. }
      repeat split; try (right; reflexivity).
    + repeat split; try discriminate; try (left; reflexivity).
  - repeat split; try discriminate; try (left; reflexivity).
Qed.

(** ** What no action does *)

Section Frame.
Context `{NumberOps}.

Lemma clearAll_any answer p :
  Rich.clearAllBtn_click answer p
  = if answer
    then Rich.renderPunchList
           (set_localStorage (insert (utf16 "punchData") (utf16 "[]"))
              (add_output (Confirm (utf16 "确定要清空全部打卡数据吗？此操作不可恢复！")) p))
    else (Normal tt, add_output (Confirm (utf16 "确定要清空全部打卡数据吗？此操作不可恢复！")) p).
Proof. destruct answer; reflexivity. Qed.

Lemma delBtn_onclick_any c p :
  Rich.delBtn_onclick c p
  = let data := default [] (arrays p !! captured_data c) in
    let left :=
      splice data (Z.of_nat (List.length data) - 1 - Z.of_nat (captured_idx c)) 1 in
    Rich.renderPunchList
      (set_localStorage (insert (utf16 "punchData") (JSON_stringify (JArr left)))
         (set_arrays (fun heap => <[captured_data c := left]> heap) p)).
Proof. reflexivity. Qed.

(** An action leaves the storage as it is or overwrites ['punchData']. *)
Lemma step_storage a p :
  localStorage (step a p) = localStorage p
  \/ exists value, localStorage (step a p) = <[utf16 "punchData" := value]> (localStorage p).
Proof.
  destruct a as [value dateStr|i| |answer|]; cbn [step].
  - rewrite Rich_submit_any.
    change (punchInput_value (set_punchInput_value value p)) with value.
    destruct (trim value) as [|c text']; [left; reflexivity|].
    destruct (stored_array _) as [elements|e]; [|left; reflexivity].
    right. rewrite Rich_render_storage. eexists. reflexivity.
  - unfold Rich.click_delBtn, bind, read.
    destruct (punchList p !! i) as [[markup [b|]]|]; try (left; reflexivity).
    right. rewrite delBtn_onclick_any. cbv zeta.
    rewrite Rich_render_storage. eexists. reflexivity.
  - left. apply export_keeps_storage.
  - rewrite clearAll_any. destruct answer; [|left; reflexivity].
    right. rewrite Rich_render_storage. eexists. reflexivity.
  - left. rewrite Rich_render_storage. reflexivity.
Qed.

Lemma simple_step_storage a p :
  localStorage (simple_step a p) = localStorage p
  \/ exists value,
       localStorage (simple_step a p) = <[utf16 "punchData" := value]> (localStorage p).
Proof.
  destruct a as [value dateStr|i| |answer|]; cbn [simple_step];
    try (left; reflexivity).
  - rewrite Simple_submit_any.
    change (punchInput_value (set_punchInput_value value p)) with value.
    destruct (trim value) as [|c text']; [left; reflexivity|].
    destruct (stored_array _) as [elements|e]; [|left; reflexivity].
    right. rewrite Simple_render_storage. eexists. reflexivity.
  - left. rewrite exportBtn_click_same. apply export_keeps_storage.
  - left. rewrite Simple_render_storage. reflexivity.
Qed.

End Frame.

(** X10.  The scripts own one key.  Whatever the page and whatever the
    action — submit, delete, export, clear-all, reload —, every
    [localStorage] key other than ['punchData'] keeps its value (or its
    absence), in both scripts. *)
Theorem other_keys_untouched `{NumberOps} (a : action) (p : page) (key : jsstring) :
  key <> utf16 "punchData" ->
  localStorage (step a p) !! key = localStorage p !! key
  /\ localStorage (simple_step a p) !! key = localStorage p !! key.
Proof.
  intros Hkey. split.
  - destruct (step_storage a p) as [->|(value & ->)]; [reflexivity|].
    apply lookup_insert_ne. congruence.
  - destruct (simple_step_storage a p) as [->|(value & ->)]; [reflexivity|].
    apply lookup_insert_ne. congruence.
Qed.

(** X17.  The simpler script cannot repair its storage.  Once
    [getPunchData] throws or returns something that is no array, no
    session of the simpler script changes the stored values, so every
    later submit with text fails the same way.  (The richer script has
    clear-all.) *)
Theorem simple_never_repairs `{NumberOps} (e : Error) (actions : list action)
    (p : page) :
  stored_array p = Throw e ->
  localStorage (simple_run actions p) = localStorage p
  /\ stored_array (simple_run actions p) = Throw e.
Proof.
  intros Hbad.
  enough (Hs : localStorage (simple_run actions p) = localStorage p).
  { split; [exact Hs|]. rewrite <- Hbad. apply stored_array_only_storage, Hs. }
  revert p Hbad. induction actions as [|a actions IH]; intros p Hbad; [reflexivity|].
  cbn [simple_run fold_left].
  assert (Hstep : localStorage (simple_step a p) = localStorage p).
  { destruct a as [value dateStr|i| |answer|]; cbn [simple_step]; try reflexivity.
    - rewrite Simple_submit_any.
      change (punchInput_value (set_punchInput_value value p)) with value.
      destruct (trim value) as [|c text']; [reflexivity|].
      rewrite (stored_array_only_storage (set_punchInput_value value p) p eq_refl), Hbad.
      reflexivity.
    - rewrite exportBtn_click_same. apply export_keeps_storage.
    - rewrite Simple_render_storage. reflexivity. }
  change (fold_left (fun q a0 => simple_step a0 q) actions (simple_step a p))
    with (simple_run actions (simple_step a p)).
  rewrite IH.
  - exact Hstep.
  - rewrite <- Hbad. apply stored_array_only_storage, Hstep.
Qed.

(** ** How the actions compose *)

Section Compose.
Context `{NumberOps}.

Lemma without_last (log : list Entry) e :
  without (List.length (log ++ [e]) - 1 - 0) (log ++ [e]) = log.
Proof.
  unfold without. rewrite length_app. cbn [List.length].
  replace (List.length log + 1 - 1 - 0)%nat with (List.length log) by lia.
  rewrite firstn_app, Nat.sub_diag, firstn_all. cbn [firstn].
  rewrite skipn_all2 by (rewrite length_app; cbn; lia).
  rewrite !app_nil_r. reflexivity.
Qed.

Lemma delete_top_length (log : list Entry) :
  List.length (next_log (DoDelete 0) log) = (List.length log - 1)%nat.
Proof.
  cbn [next_log]. destruct (Nat.ltb_spec 0 (List.length log)) as [Hpos|Hzero]; [|lia].
  unfold without. rewrite length_app, length_firstn, length_skipn. lia.
Qed.

Lemma delete_top_iter n : forall (log : list Entry) p,
  shows log p ->
  exists log', shows log' (Nat.iter n (step (DoDelete 0)) p)
               /\ List.length log' = (List.length log - n)%nat.
Proof.
  induction n as [|n IH]; intros log p Hshows.
  - exists log. split; [exact Hshows|lia].
  - destruct (IH log p Hshows) as (log' & Hshows' & Hlen).
    exists (next_log (DoDelete 0) log'). cbn [Nat.iter nat_rect]. split.
    + apply step_refines, Hshows'.
    + rewrite delete_top_length. lia.
Qed.

Lemma map_delete {A B} (f : A -> B) (l : list A) : forall i,
  List.map f (delete i l) = delete i (List.map f l).
Proof.
  induction l as [|x l IH]; intros i; [reflexivity|].
  destruct i as [|i]; [reflexivity|].
  cbn [List.map]. change (delete (S i) (x :: l)) with (x :: delete i l).
  cbn [List.map]. rewrite IH. reflexivity.
Qed.

Lemma rev_without (log : list Entry) i :
  (i < List.length log)%nat ->
  rev (without (List.length log - 1 - i) log) = delete i (rev log).
Proof.
  intros Hi. unfold without. rewrite delete_take_drop.
  change (take i (rev log)) with (firstn i (rev log)).
  change (drop (S i) (rev log)) with (skipn (S i) (rev log)).
  rewrite firstn_rev, skipn_rev, rev_app_distr.
  replace (S (List.length log - 1 - i)) with (List.length log - i)%nat by lia.
  replace (List.length log - S i)%nat with (List.length log - 1 - i)%nat by lia.
  reflexivity.
Qed.

Lemma shows_markup log p :
  shows log p -> List.map innerHTML (punchList p) = List.map entry_markup (rev log).
Proof. intros (_ & ref & -> & _). apply rich_rows_markup. Qed.

End Compose.

(** X11.  Deleting the top row undoes a submit.  On a page that stores a
    log, a submit with text followed by a click on the delete button of
    the first row (the row of the entry just made) stores that log again,
    in its canonical serialization, and shows its rows. *)
Theorem submit_then_delete_top `{NumberOps} (log : list Entry)
    (value dateStr : jsstring) (p : page) :
  load p = Normal (log_value log) ->
  trim value <> [] ->
  let after := step (DoDelete 0) (step (DoSubmit value dateStr) p) in
  load after = Normal (log_value log)
  /\ localStorage after
     = <[utf16 "punchData" := JSON_stringify (log_value log)]> (localStorage p)
  /\ List.map innerHTML (punchList after) = List.map entry_markup (rev log).
Proof.
  intros Hload Htext. cbv zeta. cbn [step].
  set (q := set_punchInput_value value p).
  assert (Hq : load q = Normal (log_value log)).
  { rewrite <- Hload. apply load_only_storage. reflexivity. }
  assert (Htextq : trim (punchInput_value q) <> []) by exact Htext.
  rewrite (Rich_submit_run log dateStr q Htextq Hq).
  set (e := {| text := trim (punchInput_value q); date := dateStr |}).
  pose proof (load_submitted (log ++ [e]) q) as Hsub.
  assert (Hi : (0 < List.length (log ++ [e]))%nat) by (rewrite length_app; cbn; lia).
  rewrite (Rich_delete_run (log ++ [e]) _ 0 Hsub Hi).
  rewrite without_last.
  set (r := set_localStorage _ _).
  assert (Hr : load r = Normal (log_value log)).
  { subst r. rewrite load_lookup. unfold_page.
    rewrite lookup_insert_eq, JSON_parse_stringify_log. reflexivity. }
  rewrite (Rich_render_log log r Hr). cbn [snd].
  split; [|split].
  - rewrite <- Hr. apply load_only_storage. reflexivity.
  - subst r. unfold_page. rewrite Rich_render_storage.
    unfold submitted. unfold_page. apply insert_insert_eq.
  - unfold_page. apply rich_rows_markup.
Qed.

(** X12.  Deleting the first row as many times as there are entries
    empties the log: on a page that stores and shows a log of n entries,
    n clicks on the delete button of the top row leave the empty array
    stored and no row on display. *)
Theorem delete_top_until_empty `{NumberOps} (log : list Entry) (p : page) :
  shows log p ->
  let after := Nat.iter (List.length log) (step (DoDelete 0)) p in
  load after = Normal (JArr []) /\ punchList after = [].
Proof.
  intros Hshows. cbv zeta.
  destruct (delete_top_iter (List.length log) log p Hshows)
    as (log' & (Hload & ref & Hrows & _) & Hlen).
  rewrite Nat.sub_diag in Hlen. destruct log'; [|discriminate].
  split; assumption.
Qed.

(** X13.  Rendering twice shows what rendering once shows, whatever the
    storage holds.  In the simpler script the second call leaves the page
    and ends exactly as the first; in the richer one it ends the same
    way with the same rows (the buttons are new ones). *)
Theorem render_idempotent `{NumberOps} (p : page) :
  Simple.renderPunchList (snd (Simple.renderPunchList p)) = Simple.renderPunchList p
  /\ fst (Rich.renderPunchList (snd (Rich.renderPunchList p)))
     = fst (Rich.renderPunchList p)
  /\ view (snd (Rich.renderPunchList (snd (Rich.renderPunchList p))))
     = view (snd (Rich.renderPunchList p)).
Proof.
  assert (Hs : load (snd (Simple.renderPunchList p)) = load p)
    by apply load_only_storage, Simple_render_storage.
  assert (Hr : load (snd (Rich.renderPunchList p)) = load p)
    by apply load_only_storage, Rich_render_storage.
  rewrite (Simple_render_any (snd _)), (Rich_render_any (snd _)), Hs, Hr.
  rewrite (Simple_render_any p), (Rich_render_any p).
  destruct (load p) as [data|e]; [|repeat split].
  destruct (array_receiver data) as [elements|e].
  - split; [destruct p; reflexivity|]. split; [reflexivity|].
    unfold view. unfold_page. rewrite !button_lis_markup. reflexivity.
  - split; [destruct p; reflexivity|]. split; reflexivity.
Qed.

(** X14.  Opening the page again shows the list as it was.  On every
    page a user can reach in the richer script, a reload leaves the
    storage alone and shows the same rows in the same order; the input
    field is empty. *)
Theorem reload_shows_the_same `{NumberOps} (p : page) :
  reachable p ->
  localStorage (step DoReload p) = localStorage p
  /\ List.map innerHTML (punchList (step DoReload p)) = List.map innerHTML (punchList p)
  /\ punchInput_value (step DoReload p) = [].
Proof.
  intros Hp. destruct (reachable_shows p Hp) as (log & Hshows).
  pose proof (step_refines DoReload log p Hshows) as Hafter.
  rewrite (shows_markup log p Hshows), (shows_markup _ _ Hafter).
  cbn [step next_log].
  destruct (render_frame (reopen p)) as (_ & Hs & Hi & _).
  split; [exact Hs|]. split; [reflexivity|exact Hi].
Qed.

(** X15.  What a submit and a delete do to the rows.  On every page a
    user can reach in the richer script: a submit with text puts the row
    of the new entry on top and leaves the other rows as they were, in
    order; a click on the delete button of row i takes row i out and
    leaves the other rows as they were, in order. *)
Theorem rows_after_submit_and_delete `{NumberOps} (p : page) :
  reachable p ->
  (forall value dateStr,
      trim value <> [] ->
      List.map innerHTML (punchList (step (DoSubmit value dateStr) p))
      = entry_markup {| text := trim value; date := dateStr |}
        :: List.map innerHTML (punchList p))
  /\ (forall i,
         (i < List.length (punchList p))%nat ->
         List.map innerHTML (punchList (step (DoDelete i) p))
         = delete i (List.map innerHTML (punchList p))).
Proof.
  intros Hp. destruct (reachable_shows p Hp) as (log & Hshows).
  pose proof (shows_markup log p Hshows) as Hrows. split.
  - intros value dateStr Htext.
    rewrite (shows_markup _ _ (step_refines (DoSubmit value dateStr) log p Hshows)).
    rewrite Hrows. cbn [next_log].
    destruct (trim value) as [|c text']; [congruence|].
    rewrite rev_unit. reflexivity.
  - intros i Hi.
    assert (Hlen : (i < List.length log)%nat).
    { rewrite <- (length_map innerHTML), Hrows, length_map, length_rev in Hi. exact Hi. }
    rewrite (shows_markup _ _ (step_refines (DoDelete i) log p Hshows)).
    rewrite Hrows. cbn [next_log].
    destruct (Nat.ltb_spec i (List.length log)) as [_|Hge]; [|lia].
    rewrite rev_without by exact Hlen. apply map_delete.
Qed.

(** ** Elements without the fields *)

Section MissingFields.
Context `{NumberOps}.

Lemma row_markup_lacking item :
  lacks_fields item -> row_markup item = Normal undefined_markup.
Proof.
  destruct item as [| | | | |ps]; cbn [lacks_fields]; try (intros []; fail);
    try reflexivity.
  intros [Htext Hdate]. unfold row_markup. cbn [get_field completion_bind].
  rewrite Htext, Hdate. reflexivity.
Qed.

Lemma export_line_lacking item idx :
  lacks_fields item -> export_line item idx = Normal (undefined_line (idx + 1)).
Proof.
  destruct item as [| | | | |ps]; cbn [lacks_fields]; try (intros []; fail);
    try reflexivity.
  intros [Htext Hdate]. unfold export_line. cbn [get_field completion_bind].
  rewrite Htext, Hdate. reflexivity.
Qed.

Lemma rows_markup_lacking items :
  Forall lacks_fields items ->
  rows_markup items = (replicate (List.length items) undefined_markup, Normal tt).
Proof.
  induction 1 as [|item items Hitem _ IH]; [reflexivity|].
  cbn [rows_markup List.length replicate].
  rewrite (row_markup_lacking item Hitem), IH. reflexivity.
Qed.

Lemma export_forEach_lacking items : forall idx content,
  Forall lacks_fields items ->
  export_forEach items idx content
  = Normal (content ++ undefined_report_from (idx + 1) (List.length items)).
Proof.
  induction items as [|item items IH]; intros idx content Hitems.
  - cbn. rewrite app_nil_r. reflexivity.
  - apply Forall_cons in Hitems as [Hitem Hitems].
    cbn [export_forEach List.length undefined_report_from].
    rewrite (export_line_lacking item idx Hitem). cbn [completion_bind].
    rewrite IH by exact Hitems. rewrite <- app_assoc. reflexivity.
Qed.

Lemma map_replicate {A B} (f : A -> B) n x :
  List.map f (replicate n x) = replicate n (f x).
Proof. induction n as [|n IH]; [reflexivity|]. cbn. rewrite IH. reflexivity. Qed.

End MissingFields.

(** X16.  A stored array whose elements lack [text] and [date] — objects
    without these keys, strings, numbers, booleans, arrays — is rendered
    and exported without any error: every row and every line of the file
    carries the word [undefined] where the text and the date would be.
    Both renderers make one such row per element; the export numbers one
    such line per element. *)
Theorem missing_fields_print_undefined `{NumberOps} (items : list jsval)
    (p : page) :
  Forall lacks_fields items ->
  load p = Normal (JArr items) ->
  Simple.renderPunchList p
  = (Normal tt,
     set_punchList (fun _ => replicate (List.length items) (plain_li undefined_markup)) p)
  /\ fst (Rich.renderPunchList p) = Normal tt
  /\ List.map innerHTML (punchList (snd (Rich.renderPunchList p)))
     = replicate (List.length items) undefined_markup
  /\ (items <> [] ->
      Rich.exportBtn_click p
      = (Normal tt,
         add_output
           (Download (utf16 "punch.txt")
              {| blob_parts := [undefined_report_from 1 (List.length items)];
                 blob_type := utf16 "text/plain" |})
           (set_blob_urls (fun store => store ++ [None]) p))).
Proof.
  intros Hitems Hload.
  assert (Hrev : Forall lacks_fields (rev items)) by (apply List.Forall_rev, Hitems).
  rewrite Simple_render_any, Rich_render_any, export_any, Hload.
  cbn [array_receiver length_is_zero completion_bind].
  rewrite (rows_markup_lacking _ Hrev), length_rev. cbn [fst snd].
  rewrite map_replicate.
  split; [reflexivity|]. split; [reflexivity|]. split.
  - unfold_page. apply button_lis_markup.
  - intros Hne. destruct items as [|item items]; [congruence|].
    cbn [List.length Nat.eqb].
    rewrite (export_forEach_lacking _ 0 [] Hitems). reflexivity.
Qed.

(** ** Concrete runs

    The theorems above at concrete pages, with Numbers kept as tokens. *)

#[local] Existing Instance token_numbers.

Lemma load_empty_string_witness :
  localStorage (page_with (Some []) []) !! utf16 "punchData" = Some []
  /\ Rich.getPunchData (page_with (Some []) [])
     = (Normal (JArr []), page_with (Some []) []).
Proof.
  split; [reflexivity|].
  apply (load_empty_string (page_with (Some []) [])).
  reflexivity.
Defined.

(** C7 as stated fails twice over.  The stored empty string is present
    and is no serialized log, yet loading it raises no error and returns
    the empty array; the stored text [null] is valid JSON and is no
    serialized log, yet loading it raises no error and returns null. *)
Lemma load_malformed_counterexample :
  (localStorage (page_with (Some []) []) !! utf16 "punchData" = Some []
   /\ (forall log, JSON_parse [] <> Normal (log_value log))
   /\ Rich.getPunchData (page_with (Some []) [])
      = (Normal (JArr []), page_with (Some []) [])
   /\ forall e, fst (Rich.getPunchData (page_with (Some []) [])) <> Throw e)
  /\ (localStorage (page_with (Some (utf16 "null")) []) !! utf16 "punchData"
      = Some (utf16 "null")
      /\ (forall log, JSON_parse (utf16 "null") <> Normal (log_value log))
      /\ Rich.getPunchData (page_with (Some (utf16 "null")) [])
         = (Normal JNull, page_with (Some (utf16 "null")) [])
      /\ forall e, fst (Rich.getPunchData (page_with (Some (utf16 "null")) []))
                   <> Throw e).
Proof.
  repeat split; try discriminate; reflexivity.
Qed.

Lemma load_malformed_witness :
  Rich.getPunchData (page_with (Some (utf16 "[{")) [])
  = (Throw SyntaxError, page_with (Some (utf16 "[{")) [])
  /\ Rich.getPunchData (page_with None []) = (Normal (JArr []), page_with None [])
  /\ Simple.getPunchData (page_with (Some []) [])
     = (Normal (JArr []), page_with (Some []) [])
  /\ Simple.getPunchData (page_with (Some (utf16 "{}")) [])
     = (Normal (JObj []), page_with (Some (utf16 "{}")) [])
  /\ Rich.getPunchData (page_with (Some (utf16 "true")) [])
     = (Normal (JBool true), page_with (Some (utf16 "true")) []).
Proof.
  split; [|split; [|split; [|split]]].
  - apply (proj1 (load_malformed (page_with (Some (utf16 "[{")) [])) (utf16 "[{")).
    + reflexivity.
    + discriminate.
    + reflexivity.
  - apply (proj1 (proj2 (load_malformed (page_with None [])))).
    reflexivity.
  - apply (proj1 (proj2 (proj2 (load_malformed (page_with (Some []) []))))).
    reflexivity.
  - apply (proj2 (proj2 (proj2 (load_malformed (page_with (Some (utf16 "{}")) []))))
             (utf16 "{}") (JObj [])).
    + reflexivity.
    + discriminate.
    + reflexivity.
  - apply (proj2 (proj2 (proj2 (load_malformed (page_with (Some (utf16 "true")) []))))
             (utf16 "true") (JBool true)).
    + reflexivity.
    + discriminate.
    + reflexivity.
Defined.


Lemma export_content_witness :
  [entry_A; entry_B] <> []
  /\ load (page_storing [entry_A; entry_B] []) = Normal (log_value [entry_A; entry_B])
  /\ outputs (snd (Rich.exportBtn_click (page_storing [entry_A; entry_B] [])))
     = [Download (utf16 "punch.txt")
          {| blob_parts := [utf16 "【1】D1：A" ++ [10] ++ utf16 "【2】D2：B" ++ [10]];
             blob_type := utf16 "text/plain" |}].
Proof.
  assert (Hne : [entry_A; entry_B] <> []) by discriminate.
  assert (Hload : load (page_storing [entry_A; entry_B] [])
                  = Normal (log_value [entry_A; entry_B])) by reflexivity.
  split; [exact Hne|]. split; [exact Hload|].
  rewrite (proj1 (proj2 (export_content [entry_A; entry_B] _ Hne Hload))).
  reflexivity.
Defined.

Lemma export_empty_guard_witness :
  load (page_with None []) = Normal (JArr [])
  /\ Simple.exportBtn_click (page_with None [])
     = (Normal tt, add_output (Alert (utf16 "暂无打卡数据可导出！")) (page_with None [])).
Proof.
  assert (Hload : load (page_with None []) = Normal (JArr [])) by reflexivity.
  split; [exact Hload|].
  exact (proj1 (export_empty_guard (page_with None []) Hload)).
Defined.

Lemma submit_contract_witness :
  trim (punchInput_value (page_storing [entry_A] (utf16 "  "))) = []
  /\ Rich.punchForm_submit (utf16 "D2") (page_storing [entry_A] (utf16 "  "))
     = (Normal tt, page_storing [entry_A] (utf16 "  "))
  /\ trim (punchInput_value (page_storing [entry_A] (utf16 " B "))) <> []
  /\ load (page_storing [entry_A] (utf16 " B ")) = Normal (log_value [entry_A])
  /\ load (snd (Rich.punchForm_submit (utf16 "D2") (page_storing [entry_A] (utf16 " B "))))
     = Normal (log_value [entry_A; entry_B]).
Proof.
  assert (Hblank : trim (punchInput_value (page_storing [entry_A] (utf16 "  "))) = [])
    by reflexivity.
  assert (Htext : trim (punchInput_value (page_storing [entry_A] (utf16 " B "))) <> [])
    by discriminate.
  assert (Hload : load (page_storing [entry_A] (utf16 " B "))
                  = Normal (log_value [entry_A])) by reflexivity.
  split; [exact Hblank|].
  split.
  { exact (proj2 (proj1 (submit_contract [entry_A] (utf16 "D2")
                           (page_storing [entry_A] (utf16 "  "))) Hblank)). }
  split; [exact Htext|]. split; [exact Hload|].
  exact (proj1 (proj2 (proj2 (proj1 (proj2
    (proj2 (submit_contract [entry_A] (utf16 "D2")
              (page_storing [entry_A] (utf16 " B "))) Htext Hload)))))).
Defined.

Lemma delete_positional_witness :
  load (page_storing [entry_A; entry_B; entry_C] [])
  = Normal (log_value [entry_A; entry_B; entry_C])
  /\ (1 < List.length [entry_A; entry_B; entry_C])%nat
  /\ load (snd (Rich.click_delBtn 1
                  (snd (Rich.renderPunchList (page_storing [entry_A; entry_B; entry_C] [])))))
     = Normal (log_value [entry_A; entry_C]).
Proof.
  assert (Hload : load (page_storing [entry_A; entry_B; entry_C] [])
                  = Normal (log_value [entry_A; entry_B; entry_C])) by reflexivity.
  assert (Hi : (1 < List.length [entry_A; entry_B; entry_C])%nat) by (simpl; lia).
  split; [exact Hload|]. split; [exact Hi|].
  exact (proj1 (proj2 (proj2 (proj2
    (delete_positional [entry_A; entry_B; entry_C] _ 1%nat Hload Hi))))).
Defined.

Lemma variants_agree_witness :
  view (page_storing [entry_A] (utf16 "B")) = view (page_storing [entry_A] (utf16 "B"))
  /\ agree (Simple.punchForm_submit (utf16 "D2") (page_storing [entry_A] (utf16 "B")))
           (Rich.punchForm_submit (utf16 "D2") (page_storing [entry_A] (utf16 "B"))).
Proof.
  split; [reflexivity|].
  exact (proj1 (proj2 (proj2 (proj2
    (variants_agree (page_storing [entry_A] (utf16 "B")) (page_storing [entry_A] (utf16 "B"))
       (utf16 "D2") JNull eq_refl))))).
Defined.

Lemma render_failure_witness :
  load (page_with (Some (utf16 "[{")) []) = Throw SyntaxError
  /\ Simple.renderPunchList (page_with (Some (utf16 "[{")) [])
     = (Throw SyntaxError, page_with (Some (utf16 "[{")) [])
  /\ load (page_with (Some (utf16 "null")) []) = Normal JNull
  /\ Rich.renderPunchList (page_with (Some (utf16 "null")) [])
     = (Throw TypeError, set_punchList (fun _ => []) (page_with (Some (utf16 "null")) [])).
Proof.
  assert (Hbad : load (page_with (Some (utf16 "[{")) []) = Throw SyntaxError)
    by reflexivity.
  assert (Hnull : load (page_with (Some (utf16 "null")) []) = Normal JNull)
    by reflexivity.
  split; [exact Hbad|]. split.
  { exact (proj1 (proj1 (render_failure (page_with (Some (utf16 "[{")) []))
                    SyntaxError Hbad)). }
  split; [exact Hnull|].
  apply (proj2 (render_failure (page_with (Some (utf16 "null")) [])) JNull Hnull).
  discriminate.
Defined.

Lemma render_stops_at_null_witness :
  load (page_with (Some (JSON_stringify
                           (JArr (entry_value entry_A :: JNull :: [entry_value entry_B]))))
          [])
  = Normal (JArr ([entry_value entry_A] ++ JNull :: List.map entry_value [entry_B]))
  /\ Simple.renderPunchList
       (page_with (Some (JSON_stringify
                           (JArr (entry_value entry_A :: JNull :: [entry_value entry_B]))))
          [])
     = (Throw TypeError,
        set_punchList (fun _ => [simple_row entry_B])
          (page_with (Some (JSON_stringify
                              (JArr (entry_value entry_A :: JNull :: [entry_value entry_B]))))
             [])).
Proof.
  assert (Hload :
    load (page_with (Some (JSON_stringify
                             (JArr (entry_value entry_A :: JNull :: [entry_value entry_B]))))
            [])
    = Normal (JArr ([entry_value entry_A] ++ JNull :: List.map entry_value [entry_B])))
    by reflexivity.
  split; [exact Hload|].
  exact (proj1 (render_stops_at_null [entry_value entry_A] [entry_B] _ Hload)).
Defined.

Lemma submit_outcomes_witness :
  trim (punchInput_value (page_with (Some (utf16 "[{")) (utf16 " B "))) <> []
  /\ stored_array (page_with (Some (utf16 "[{")) (utf16 " B ")) = Throw SyntaxError
  /\ Rich.punchForm_submit (utf16 "D2") (page_with (Some (utf16 "[{")) (utf16 " B "))
     = (Throw SyntaxError, page_with (Some (utf16 "[{")) (utf16 " B "))
  /\ trim (punchInput_value (page_storing [entry_A] (utf16 " B "))) <> []
  /\ stored_array (page_storing [entry_A] (utf16 " B ")) = Normal [entry_value entry_A]
  /\ punchInput_value
       (snd (Rich.punchForm_submit (utf16 "D2") (page_storing [entry_A] (utf16 " B "))))
     = [].
Proof.
  assert (Htext : trim (punchInput_value (page_with (Some (utf16 "[{")) (utf16 " B "))) <> [])
    by discriminate.
  assert (Hbad : stored_array (page_with (Some (utf16 "[{")) (utf16 " B "))
                 = Throw SyntaxError) by reflexivity.
  assert (Htext' : trim (punchInput_value (page_storing [entry_A] (utf16 " B "))) <> [])
    by discriminate.
  assert (Hgood : stored_array (page_storing [entry_A] (utf16 " B "))
                  = Normal [entry_value entry_A]) by reflexivity.
  split; [exact Htext|]. split; [exact Hbad|]. split.
  { exact (proj2 (proj1 (submit_outcomes (utf16 "D2") _ Htext) SyntaxError Hbad)). }
  split; [exact Htext'|]. split; [exact Hgood|].
  exact (proj2 (proj2 (proj2
    (proj2 (submit_outcomes (utf16 "D2") _ Htext') [entry_value entry_A] Hgood)))).
Defined.

Lemma other_keys_untouched_witness :
  utf16 "theme" <> utf16 "punchData"
  /\ localStorage
       (step (DoSubmit (utf16 "A") (utf16 "D1"))
          (set_localStorage (insert (utf16 "theme") (utf16 "dark")) (page_with None [])))
     !! utf16 "theme"
     = Some (utf16 "dark").
Proof.
  assert (Hkey : utf16 "theme" <> utf16 "punchData") by discriminate.
  split; [exact Hkey|].
  rewrite (proj1 (other_keys_untouched (DoSubmit (utf16 "A") (utf16 "D1"))
                    (set_localStorage (insert (utf16 "theme") (utf16 "dark"))
                       (page_with None []))
                    (utf16 "theme") Hkey)).
  reflexivity.
Defined.

Lemma submit_then_delete_top_witness :
  load (page_storing [entry_A] []) = Normal (log_value [entry_A])
  /\ trim (utf16 " B ") <> []
  /\ load (step (DoDelete 0) (step (DoSubmit (utf16 " B ") (utf16 "D2"))
                                 (page_storing [entry_A] [])))
     = Normal (log_value [entry_A]).
Proof.
  assert (Hload : load (page_storing [entry_A] []) = Normal (log_value [entry_A]))
    by reflexivity.
  assert (Htext : trim (utf16 " B ") <> []) by discriminate.
  split; [exact Hload|]. split; [exact Htext|].
  exact (proj1 (submit_then_delete_top [entry_A] (utf16 " B ") (utf16 "D2") _ Hload Htext)).
Defined.

Lemma delete_top_until_empty_witness :
  shows [entry_A; entry_B] (snd (Rich.renderPunchList (page_storing [entry_A; entry_B] [])))
  /\ load (Nat.iter 2 (step (DoDelete 0))
             (snd (Rich.renderPunchList (page_storing [entry_A; entry_B] []))))
     = Normal (JArr []).
Proof.
  assert (Hshows : shows [entry_A; entry_B]
                     (snd (Rich.renderPunchList (page_storing [entry_A; entry_B] [])))).
  { split; [reflexivity|]. exists 0%nat. split; reflexivity. }
  split; [exact Hshows|].
  exact (proj1 (delete_top_until_empty [entry_A; entry_B] _ Hshows)).
Defined.

Lemma reload_shows_the_same_witness :
  reachable (step (DoSubmit (utf16 "A") (utf16 "D1"))
               (snd (Rich.renderPunchList (page_with None []))))
  /\ List.map innerHTML
       (punchList (step DoReload
                     (step (DoSubmit (utf16 "A") (utf16 "D1"))
                        (snd (Rich.renderPunchList (page_with None []))))))
     = [entry_markup entry_A].
Proof.
  assert (Hreach : reachable (step (DoSubmit (utf16 "A") (utf16 "D1"))
                                (snd (Rich.renderPunchList (page_with None [])))))
    by (apply reachable_step, reachable_first).
  split; [exact Hreach|].
  rewrite (proj1 (proj2 (reload_shows_the_same _ Hreach))).
  reflexivity.
Defined.

Lemma rows_after_submit_and_delete_witness :
  reachable (step (DoSubmit (utf16 "A") (utf16 "D1"))
               (snd (Rich.renderPunchList (page_with None []))))
  /\ trim (utf16 "B") <> []
  /\ List.map innerHTML
       (punchList (step (DoSubmit (utf16 "B") (utf16 "D2"))
                     (step (DoSubmit (utf16 "A") (utf16 "D1"))
                        (snd (Rich.renderPunchList (page_with None []))))))
     = [entry_markup entry_B; entry_markup entry_A]
  /\ (0 < List.length
            (punchList (step (DoSubmit (utf16 "A") (utf16 "D1"))
                          (snd (Rich.renderPunchList (page_with None []))))))%nat
  /\ List.map innerHTML
       (punchList (step (DoDelete 0)
                     (step (DoSubmit (utf16 "A") (utf16 "D1"))
                        (snd (Rich.renderPunchList (page_with None []))))))
     = [].
Proof.
  assert (Hreach : reachable (step (DoSubmit (utf16 "A") (utf16 "D1"))
                                (snd (Rich.renderPunchList (page_with None [])))))
    by (apply reachable_step, reachable_first).
  assert (Htext : trim (utf16 "B") <> []) by discriminate.
  assert (Hrow : (0 < List.length
                        (punchList (step (DoSubmit (utf16 "A") (utf16 "D1"))
                                      (snd (Rich.renderPunchList (page_with None []))))))%nat)
    by (vm_compute; lia).
  split; [exact Hreach|]. split; [exact Htext|]. split.
  { rewrite (proj1 (rows_after_submit_and_delete _ Hreach) (utf16 "B") (utf16 "D2") Htext).
    reflexivity. }
  split; [exact Hrow|].
  rewrite (proj2 (rows_after_submit_and_delete _ Hreach) 0%nat Hrow).
  reflexivity.
Defined.

Lemma missing_fields_print_undefined_witness :
  Forall lacks_fields [JObj []; JStr (utf16 "x")]
  /\ load (page_with (Some (JSON_stringify (JArr [JObj []; JStr (utf16 "x")]))) [])
     = Normal (JArr [JObj []; JStr (utf16 "x")])
  /\ Simple.renderPunchList
       (page_with (Some (JSON_stringify (JArr [JObj []; JStr (utf16 "x")]))) [])
     = (Normal tt,
        set_punchList (fun _ => [plain_li undefined_markup; plain_li undefined_markup])
          (page_with (Some (JSON_stringify (JArr [JObj []; JStr (utf16 "x")]))) [])).
Proof.
  assert (Hitems : Forall lacks_fields [JObj []; JStr (utf16 "x")]).
  { repeat constructor. }
  assert (Hload :
    load (page_with (Some (JSON_stringify (JArr [JObj []; JStr (utf16 "x")]))) [])
    = Normal (JArr [JObj []; JStr (utf16 "x")])) by reflexivity.
  split; [exact Hitems|]. split; [exact Hload|].
  exact (proj1 (missing_fields_print_undefined _ _ Hitems Hload)).
Defined.

Lemma simple_never_repairs_witness :
  stored_array (page_with (Some (utf16 "[{")) []) = Throw SyntaxError
  /\ localStorage
       (simple_run [DoSubmit (utf16 "A") (utf16 "D1"); DoExport; DoReload]
          (page_with (Some (utf16 "[{")) []))
     = localStorage (page_with (Some (utf16 "[{")) []).
Proof.
  assert (Hbad : stored_array (page_with (Some (utf16 "[{")) []) = Throw SyntaxError)
    by reflexivity.
  split; [exact Hbad|].
  exact (proj1 (simple_never_repairs SyntaxError
                  [DoSubmit (utf16 "A") (utf16 "D1"); DoExport; DoReload] _ Hbad)).
Defined.

(** ** Examples *)

Example JSON_parse_log :
  JSON_parse (utf16 " [ {" ++ [34] ++ utf16 "date" ++ [34] ++ utf16 ": " ++ [34]
              ++ utf16 "D1" ++ [34] ++ utf16 ", " ++ [34] ++ utf16 "text" ++ [34]
              ++ utf16 ":" ++ [34] ++ utf16 "A\u4e2d" ++ [34] ++ utf16 "} ] ")
  = Normal (JArr [JObj [(utf16 "date", JStr (utf16 "D1"));
                        (utf16 "text", JStr (utf16 "A中"))]]).
Proof. reflexivity. Qed.

Example JSON_parse_trailing_comma : JSON_parse (utf16 "[1,]") = Throw SyntaxError.
Proof. reflexivity. Qed.

Example JSON_parse_leading_zero : JSON_parse (utf16 "01") = Throw SyntaxError.
Proof. reflexivity. Qed.

Example JSON_parse_index_keys_first :
  JSON_parse (utf16 "{" ++ [34] ++ utf16 "b" ++ [34] ++ utf16 ":true," ++ [34]
              ++ utf16 "1" ++ [34] ++ utf16 ":null," ++ [34] ++ utf16 "b" ++ [34]
              ++ utf16 ":false}")
  = Normal (JObj [(utf16 "1", JNull); (utf16 "b", JBool false)]).
Proof. reflexivity. Qed.

Example JSON_stringify_escapes :
  JSON_stringify (JStr [34; 10; 1; 55357; 56832; 55357; 65])
  = [34] ++ utf16 "\" ++ [34] ++ utf16 "\n\u0001" ++ [55357; 56832]
    ++ utf16 "\ud83dA" ++ [34].
Proof. reflexivity. Qed.

Example export_on_tampered_store :
  fst (Rich.exportBtn_click (page_with (Some (utf16 "42")) [])) = Throw TypeError.
Proof. reflexivity. Qed.
